(** * Cross-schema reference validator of System Tools Contracts

    A shallow embedding of the cross-reference validator (the
    [EntityRegistry] class and the three validation entry points
    [validateEnvelopeInternalRefs], [validateCrossReferences] and
    [validateDocumentRefs]) together with the properties of its
    specification.

    Documents are records whose fields follow the casts of the source: a
    field read [as string] is a [string]; a field read
    [as string | undefined], reached through [?.] or defaulted with
    [|| []] is a [Js] value that may be [undefined] or [null].  The
    operations that throw a [TypeError] on such a value (iterating it,
    calling [.map] on it) are partial, and the validators run in the
    [Completion] monad.

    The [validate] method of [ContractValidator] (lib/validator) is
    embedded over an abstract Ajv instance. *)

From stdpp Require Import base option list strings gmap fin_maps.

Set Default Proof Using "Type".

(** ** JavaScript values and completions *)

Inductive Js (A : Type) : Type :=
  | undefined : Js A
  | null : Js A
  | val (a : A) : Js A.
Arguments undefined {A}.
Arguments null {A}.
Arguments val {A} a.

#[global] Instance Js_eq_dec `{EqDecision A} : EqDecision (Js A).
Proof. solve_decision. Defined.

Inductive JsError : Type := TypeError.

Inductive Completion (A : Type) : Type :=
  | Normal (a : A) : Completion A
  | Throw (e : JsError) : Completion A.
Arguments Normal {A} a.
Arguments Throw {A} e.

#[global] Instance Completion_ret : MRet Completion := @Normal.
#[global] Instance Completion_bind : MBind Completion := λ A B f c,
  match c with
  | Normal a => f a
  | Throw e => Throw e
  end.

(** JavaScript truthiness, as used by [if (x && ...)], [x || []] and
    [.filter(Boolean)]: the empty string is falsy, every object and every
    array is truthy, [undefined] and [null] are falsy. *)
Class Truthy (A : Type) := truthy : A → bool.

#[global] Instance string_truthy : Truthy string := λ s,
  match s with
  | EmptyString => false
  | String _ _ => true
  end.
#[global] Instance list_truthy {A} : Truthy (list A) := λ _, true.
#[global] Instance Js_truthy `{Truthy A} : Truthy (Js A) := λ v,
  match v with
  | val a => truthy a
  | _ => false
  end.

(** [x || y] *)
Definition js_or `{Truthy A} (x y : Js A) : Js A :=
  if truthy x then x else y.

(** [o?.f] *)
Definition opt_chain {A B} (o : Js A) (f : A → Js B) : Js B :=
  match o with
  | val a => f a
  | _ => undefined
  end.

(** [x === y] on identifiers *)
Definition strict_eq (x y : Js string) : bool := bool_decide (x = y).

(** [String(x)], the conversion a template literal applies *)
Definition to_String (x : Js string) : string :=
  match x with
  | undefined => "undefined"
  | null => "null"
  | val s => s
  end.

(** [for (const x of xs) body], threading the variables the body assigns.
    Iterating [undefined] or [null] throws. *)
Fixpoint iterate {A S} (body : A → S → Completion S) (l : list A) (s : S)
  : Completion S :=
  match l with
  | [] => Normal s
  | x :: l' => s' ← body x s; iterate body l' s'
  end.

Definition for_of {A S} (xs : Js (list A)) (body : A → S → Completion S)
  (s : S) : Completion S :=
  match xs with
  | val l => iterate body l s
  | _ => Throw TypeError
  end.

(** [xs.map(f)]; reading [.map] of [undefined] or [null] throws. *)
Definition array_map {A B} (xs : Js (list A)) (f : A → B)
  : Completion (list B) :=
  match xs with
  | val l => Normal (map f l)
  | _ => Throw TypeError
  end.

(** The double quote character of the messages. *)
Definition dq : string :=
  String (Ascii.Ascii false true false false false true false false)
    EmptyString.
Definition quoted (s : string) : string := dq +:+ s +:+ dq.

(** ** Results *)

Inductive ErrorType : Type :=
  missing_reference | invalid_reference | circular_reference.
Inductive WarningType : Type := unverified_reference | stale_reference.

Record CrossReferenceError : Type := {
  err_type : ErrorType;
  source_schema : string;
  source_id : string;
  target_schema : string;
  target_id : string;
  field : string;
  message : string;
}.

Record CrossReferenceWarning : Type := {
  warn_type : WarningType;
  warn_message : string;
}.

Record CrossValidationResult : Type := {
  valid : bool;
  errors : list CrossReferenceError;
  warnings : list CrossReferenceWarning;
}.

(** [{ valid: errors.length === 0, errors, warnings }] *)
Definition mk_result (errors : list CrossReferenceError)
  (warnings : list CrossReferenceWarning) : CrossValidationResult :=
  {| valid := Nat.eqb (length errors) 0;
     errors := errors;
     warnings := warnings |}.

(** ** Entity registry *)

Record EnvelopeRef : Type := {
  artifact_ids : list string;
  ref_parent_envelope_id : Js string;
}.

Record PlanRef : Type := {
  pref_envelope_id : Js string;
  pref_receipt_id : Js string;
}.

Record ReceiptRef : Type := {
  rref_plan_id : Js string;
  rref_envelope_id : Js string;
}.

Record ArtifactRef : Type := { aref_envelope_id : string }.

Record EntityRegistry : Type := {
  reg_envelopes : gmap string EnvelopeRef;
  reg_plans : gmap string PlanRef;
  reg_receipts : gmap string ReceiptRef;
  reg_artifacts : gmap string ArtifactRef;
}.

(** [new EntityRegistry()] *)
Definition new_registry : EntityRegistry :=
  {| reg_envelopes := ∅; reg_plans := ∅; reg_receipts := ∅;
     reg_artifacts := ∅ |}.

Definition set_artifact (registry : EntityRegistry) (artifact id : string)
  : EntityRegistry :=
  {| reg_envelopes := reg_envelopes registry;
     reg_plans := reg_plans registry;
     reg_receipts := reg_receipts registry;
     reg_artifacts :=
       <[artifact := {| aref_envelope_id := id |}]> (reg_artifacts registry) |}.

Definition registerEnvelope (registry : EntityRegistry) (id : string)
  (envelope : EnvelopeRef) : EntityRegistry :=
  let registry :=
    {| reg_envelopes := <[id := envelope]> (reg_envelopes registry);
       reg_plans := reg_plans registry;
       reg_receipts := reg_receipts registry;
       reg_artifacts := reg_artifacts registry |} in
  foldl (λ registry artifact, set_artifact registry artifact id)
    registry (artifact_ids envelope).

(** The loop of [registerEnvelope] on its own. *)
Definition set_artifacts (id : string) (registry : EntityRegistry)
  (l : list string) : EntityRegistry :=
  foldl (λ registry artifact, set_artifact registry artifact id) registry l.

Definition registerPlan (registry : EntityRegistry) (id : string)
  (plan : PlanRef) : EntityRegistry :=
  {| reg_envelopes := reg_envelopes registry;
     reg_plans := <[id := plan]> (reg_plans registry);
     reg_receipts := reg_receipts registry;
     reg_artifacts := reg_artifacts registry |}.

Definition registerReceipt (registry : EntityRegistry) (id : string)
  (receipt : ReceiptRef) : EntityRegistry :=
  {| reg_envelopes := reg_envelopes registry;
     reg_plans := reg_plans registry;
     reg_receipts := <[id := receipt]> (reg_receipts registry);
     reg_artifacts := reg_artifacts registry |}.

(** [Map.prototype.has] *)
Definition Map_has {V} (m : gmap string V) (id : string) : bool :=
  match m !! id with
  | Some _ => true
  | None => false
  end.

Definition hasEnvelope (registry : EntityRegistry) (id : string) : bool :=
  Map_has (reg_envelopes registry) id.
Definition hasPlan (registry : EntityRegistry) (id : string) : bool :=
  Map_has (reg_plans registry) id.
Definition hasReceipt (registry : EntityRegistry) (id : string) : bool :=
  Map_has (reg_receipts registry) id.
Definition hasArtifact (registry : EntityRegistry) (id : string) : bool :=
  Map_has (reg_artifacts registry) id.

Definition getEnvelope (registry : EntityRegistry) (id : string)
  : option EnvelopeRef :=
  reg_envelopes registry !! id.

Definition clear (registry : EntityRegistry) : EntityRegistry :=
  {| reg_envelopes := ∅; reg_plans := ∅; reg_receipts := ∅;
     reg_artifacts := ∅ |}.

(** ** Documents *)

Record Artifact : Type := { artifact_id : string }.

Record Finding : Type := {
  finding_id : string;
  evidence_refs : Js (list string);
}.

Record Provenance : Type := { parent_envelope_id : Js string }.

Record Envelope : Type := {
  envelope_id : string;
  artifacts : Js (list Artifact);
  findings : Js (list Finding);
  provenance : Js Provenance;
}.

Record Plan : Type := {
  plan_id : string;
  source_envelope_id : Js string;
  receipt_id : Js string;
}.

(** A receipt is read through two envelope fields: registration reads
    [envelope_id], the reference check reads [source_envelope_id]. *)
Record Receipt : Type := {
  r_receipt_id : string;
  r_plan_id : Js string;
  r_envelope_id : Js string;
  r_source_envelope_id : Js string;
}.

Record Documents : Type := {
  doc_envelopes : Js (list Envelope);
  doc_plans : Js (list Plan);
  doc_receipts : Js (list Receipt);
}.

(** ** Internal references of one envelope *)

Definition finding_error (envelopeId findingId ref : string)
  : CrossReferenceError :=
  {| err_type := missing_reference;
     source_schema := "evidence-envelope";
     source_id := envelopeId;
     target_schema := "artifact";
     target_id := ref;
     field := "findings[" +:+ findingId +:+ "].evidence_refs";
     message := "Finding " +:+ quoted findingId +:+
                " references non-existent artifact " +:+ quoted ref |}.

Definition parent_unverified (parentId : Js string) : CrossReferenceWarning :=
  {| warn_type := unverified_reference;
     warn_message := "Parent envelope " +:+ quoted (to_String parentId) +:+
                     " cannot be verified without registry" |}.

Definition validateEnvelopeInternalRefs (envelope : Envelope)
  : Completion CrossValidationResult :=
  let errors : list CrossReferenceError := [] in
  let warnings : list CrossReferenceWarning := [] in
  let envelopeId := envelope_id envelope in
  let artifacts := js_or (artifacts envelope) (val []) in
  let findings := js_or (findings envelope) (val []) in
  ids ← array_map artifacts artifact_id;
  let artifactIds : gset string := list_to_set (filter (λ a, truthy a) ids) in
  errors ← for_of findings (λ finding errors,
    let findingId := finding_id finding in
    let evidenceRefs := js_or (evidence_refs finding) (val []) in
    for_of evidenceRefs (λ ref errors,
      if negb (bool_decide (ref ∈ artifactIds))
      then Normal (errors ++ [finding_error envelopeId findingId ref])
      else Normal errors) errors) errors;
  let provenance := provenance envelope in
  let warnings :=
    if truthy (opt_chain provenance parent_envelope_id)
    then warnings ++ [parent_unverified (opt_chain provenance parent_envelope_id)]
    else warnings in
  Normal (mk_result errors warnings).

(** ** Batch validation *)

Definition missing_parent (id parentId : string) : CrossReferenceError :=
  {| err_type := missing_reference;
     source_schema := "evidence-envelope";
     source_id := id;
     target_schema := "evidence-envelope";
     target_id := parentId;
     field := "provenance.parent_envelope_id";
     message := "Envelope " +:+ quoted id +:+
                " references non-existent parent envelope " +:+
                quoted parentId |}.

Definition circular_parent (id parentId : string) : CrossReferenceError :=
  {| err_type := circular_reference;
     source_schema := "evidence-envelope";
     source_id := id;
     target_schema := "evidence-envelope";
     target_id := parentId;
     field := "provenance.parent_envelope_id";
     message := "Envelope " +:+ quoted id +:+ " references itself as parent" |}.

Definition plan_missing_envelope (msg id envelopeId : string)
  : CrossReferenceError :=
  {| err_type := missing_reference;
     source_schema := "procedure-plan";
     source_id := id;
     target_schema := "evidence-envelope";
     target_id := envelopeId;
     field := "source_envelope_id";
     message := msg +:+ " references non-existent envelope " +:+
                quoted envelopeId |}.

Definition receipt_missing_plan (msg id planId : string)
  : CrossReferenceError :=
  {| err_type := missing_reference;
     source_schema := "receipt";
     source_id := id;
     target_schema := "procedure-plan";
     target_id := planId;
     field := "plan_id";
     message := msg +:+ " references non-existent plan " +:+ quoted planId |}.

Definition receipt_missing_envelope (id envelopeId : string)
  : CrossReferenceError :=
  {| err_type := missing_reference;
     source_schema := "receipt";
     source_id := id;
     target_schema := "evidence-envelope";
     target_id := envelopeId;
     field := "source_envelope_id";
     message := "Receipt " +:+ quoted id +:+
                " references non-existent envelope " +:+ quoted envelopeId |}.

(** [id && !registry.has(id)]: the guard of every registry check. *)
Definition unresolved (has : string → bool) (id : Js string) : bool :=
  truthy id && negb (has (to_String id)).

Definition validateCrossReferences (registry : EntityRegistry)
  (documents : Documents)
  : Completion (CrossValidationResult * EntityRegistry) :=
  let errors : list CrossReferenceError := [] in
  let warnings : list CrossReferenceWarning := [] in
  (* Register all envelopes *)
  registry ← for_of (js_or (doc_envelopes documents) (val []))
    (λ envelope registry,
      let id := envelope_id envelope in
      let artifacts := js_or (artifacts envelope) (val []) in
      ids ← array_map artifacts artifact_id;
      Normal (registerEnvelope registry id
        {| artifact_ids := ids;
           ref_parent_envelope_id :=
             opt_chain (provenance envelope) parent_envelope_id |}))
    registry;
  (* Register all plans *)
  registry ← for_of (js_or (doc_plans documents) (val []))
    (λ plan registry,
      let id := plan_id plan in
      Normal (registerPlan registry id
        {| pref_envelope_id := source_envelope_id plan;
           pref_receipt_id := receipt_id plan |}))
    registry;
  (* Register all receipts *)
  registry ← for_of (js_or (doc_receipts documents) (val []))
    (λ receipt registry,
      let id := r_receipt_id receipt in
      Normal (registerReceipt registry id
        {| rref_plan_id := r_plan_id receipt;
           rref_envelope_id := r_envelope_id receipt |}))
    registry;
  (* Validate envelope -> parent envelope *)
  '(errors, warnings) ← for_of (js_or (doc_envelopes documents) (val []))
    (λ envelope '(errors, warnings),
      let id := envelope_id envelope in
      let provenance := provenance envelope in
      let parentId := opt_chain provenance parent_envelope_id in
      let errors :=
        if unresolved (hasEnvelope registry) parentId
        then errors ++ [missing_parent id (to_String parentId)]
        else errors in
      let errors :=
        if strict_eq parentId (val id)
        then errors ++ [circular_parent id (to_String parentId)]
        else errors in
      internalResult ← validateEnvelopeInternalRefs envelope;
      let '(Build_CrossValidationResult _ internalErrors internalWarnings) :=
        internalResult in
      Normal (errors ++ internalErrors, warnings ++ internalWarnings))
    (errors, warnings);
  (* Validate plan -> envelope *)
  errors ← for_of (js_or (doc_plans documents) (val []))
    (λ plan errors,
      let id := plan_id plan in
      let envelopeId := source_envelope_id plan in
      if unresolved (hasEnvelope registry) envelopeId
      then Normal (errors ++ [plan_missing_envelope ("Plan " +:+ quoted id)
                                id (to_String envelopeId)])
      else Normal errors)
    errors;
  (* Validate receipt -> plan *)
  errors ← for_of (js_or (doc_receipts documents) (val []))
    (λ receipt errors,
      let id := r_receipt_id receipt in
      let planId := r_plan_id receipt in
      let envelopeId := r_source_envelope_id receipt in
      let errors :=
        if unresolved (hasPlan registry) planId
        then errors ++ [receipt_missing_plan ("Receipt " +:+ quoted id)
                          id (to_String planId)]
        else errors in
      let errors :=
        if unresolved (hasEnvelope registry) envelopeId
        then errors ++ [receipt_missing_envelope id (to_String envelopeId)]
        else errors in
      Normal errors)
    errors;
  Normal (mk_result errors warnings, registry).

(** ** Incremental validation of one document *)

Inductive SchemaType : Type := envelope | plan | receipt.

(** The document handed over with a schema tag is of that schema. *)
Definition DocumentOf (schemaType : SchemaType) : Type :=
  match schemaType with
  | envelope => Envelope
  | plan => Plan
  | receipt => Receipt
  end.

Definition parent_not_in_registry (parentId : Js string)
  : CrossReferenceWarning :=
  {| warn_type := unverified_reference;
     warn_message := "Parent envelope " +:+ quoted (to_String parentId) +:+
                     " not in registry" |}.

Definition validateDocumentRefs (registry : EntityRegistry)
  (schemaType : SchemaType)
  : DocumentOf schemaType → Completion CrossValidationResult :=
  let errors : list CrossReferenceError := [] in
  let warnings : list CrossReferenceWarning := [] in
  match schemaType with
  | envelope => λ document,
      result ← validateEnvelopeInternalRefs document;
      let '(Build_CrossValidationResult _ resultErrors resultWarnings) :=
        result in
      let errors := errors ++ resultErrors in
      let warnings := warnings ++ resultWarnings in
      let provenance := provenance document in
      let parentId := opt_chain provenance parent_envelope_id in
      let warnings :=
        if unresolved (hasEnvelope registry) parentId
        then warnings ++ [parent_not_in_registry parentId]
        else warnings in
      Normal (mk_result errors warnings)
  | plan => λ document,
      let id := plan_id document in
      let envelopeId := source_envelope_id document in
      let errors :=
        if unresolved (hasEnvelope registry) envelopeId
        then errors ++ [plan_missing_envelope "Plan" id (to_String envelopeId)]
        else errors in
      Normal (mk_result errors warnings)
  | receipt => λ document,
      let id := r_receipt_id document in
      let planId := r_plan_id document in
      let errors :=
        if unresolved (hasPlan registry) planId
        then errors ++ [receipt_missing_plan "Receipt" id (to_String planId)]
        else errors in
      Normal (mk_result errors warnings)
  end.

(** ** What each document contributes

    The loops above only ever append to [errors] and [warnings]; the
    functions below name what one document appends, so that the result of
    a whole run can be written as a concatenation. *)

(** The array that [x || []] evaluates to. *)
Definition or_empty {A} (x : Js (list A)) : list A :=
  match x with
  | val l => l
  | _ => []
  end.

(** The parent an envelope declares: [provenance?.parent_envelope_id]. *)
Definition parent_of (envelope : Envelope) : Js string :=
  opt_chain (provenance envelope) parent_envelope_id.

Definition artifact_id_set (envelope : Envelope) : gset string :=
  list_to_set
    (filter (λ a, truthy a) (map artifact_id (or_empty (artifacts envelope)))).

Definition ref_errors (envelope : Envelope) (finding : Finding) (ref : string)
  : list CrossReferenceError :=
  if bool_decide (ref ∈ artifact_id_set envelope) then []
  else [finding_error (envelope_id envelope) (finding_id finding) ref].

Definition internal_errors (envelope : Envelope) : list CrossReferenceError :=
  flat_map
    (λ finding,
       flat_map (ref_errors envelope finding)
         (or_empty (evidence_refs finding)))
    (or_empty (findings envelope)).

Definition internal_warnings (envelope : Envelope)
  : list CrossReferenceWarning :=
  if truthy (parent_of envelope) then [parent_unverified (parent_of envelope)]
  else [].

Definition parent_errors (registry : EntityRegistry) (envelope : Envelope)
  : list CrossReferenceError :=
  (if unresolved (hasEnvelope registry) (parent_of envelope)
   then [missing_parent (envelope_id envelope)
           (to_String (parent_of envelope))]
   else []) ++
  (if strict_eq (parent_of envelope) (val (envelope_id envelope))
   then [circular_parent (envelope_id envelope)
           (to_String (parent_of envelope))]
   else []).

Definition envelope_errors (registry : EntityRegistry) (envelope : Envelope)
  : list CrossReferenceError :=
  parent_errors registry envelope ++ internal_errors envelope.

Definition plan_errors (msg : Plan → string) (registry : EntityRegistry)
  (plan : Plan) : list CrossReferenceError :=
  if unresolved (hasEnvelope registry) (source_envelope_id plan)
  then [plan_missing_envelope (msg plan) (plan_id plan)
          (to_String (source_envelope_id plan))]
  else [].

Definition receipt_plan_errors (msg : Receipt → string)
  (registry : EntityRegistry) (receipt : Receipt)
  : list CrossReferenceError :=
  if unresolved (hasPlan registry) (r_plan_id receipt)
  then [receipt_missing_plan (msg receipt) (r_receipt_id receipt)
          (to_String (r_plan_id receipt))]
  else [].

Definition receipt_envelope_errors (registry : EntityRegistry)
  (receipt : Receipt) : list CrossReferenceError :=
  if unresolved (hasEnvelope registry) (r_source_envelope_id receipt)
  then [receipt_missing_envelope (r_receipt_id receipt)
          (to_String (r_source_envelope_id receipt))]
  else [].

Definition batch_plan_msg (plan : Plan) : string :=
  "Plan " +:+ quoted (plan_id plan).
Definition batch_receipt_msg (receipt : Receipt) : string :=
  "Receipt " +:+ quoted (r_receipt_id receipt).

Definition receipt_errors (registry : EntityRegistry) (receipt : Receipt)
  : list CrossReferenceError :=
  receipt_plan_errors batch_receipt_msg registry receipt ++
  receipt_envelope_errors registry receipt.

(** The registry after the registration phase of a batch. *)
Definition envelope_ref (envelope : Envelope) : EnvelopeRef :=
  {| artifact_ids := map artifact_id (or_empty (artifacts envelope));
     ref_parent_envelope_id := parent_of envelope |}.

Definition register_documents (registry : EntityRegistry)
  (documents : Documents) : EntityRegistry :=
  let registry :=
    foldl (λ registry envelope,
             registerEnvelope registry (envelope_id envelope)
               (envelope_ref envelope))
      registry (or_empty (doc_envelopes documents)) in
  let registry :=
    foldl (λ registry plan,
             registerPlan registry (plan_id plan)
               {| pref_envelope_id := source_envelope_id plan;
                  pref_receipt_id := receipt_id plan |})
      registry (or_empty (doc_plans documents)) in
  foldl (λ registry receipt,
           registerReceipt registry (r_receipt_id receipt)
             {| rref_plan_id := r_plan_id receipt;
                rref_envelope_id := r_envelope_id receipt |})
    registry (or_empty (doc_receipts documents)).

Definition batch_errors (registry : EntityRegistry) (documents : Documents)
  : list CrossReferenceError :=
  flat_map (envelope_errors registry) (or_empty (doc_envelopes documents)) ++
  flat_map (plan_errors batch_plan_msg registry)
    (or_empty (doc_plans documents)) ++
  flat_map (receipt_errors registry) (or_empty (doc_receipts documents)).

Definition batch_warnings (documents : Documents)
  : list CrossReferenceWarning :=
  flat_map internal_warnings (or_empty (doc_envelopes documents)).

(** ** Where an error comes from

    Every constructor names a reference field that is present in a document
    (its value is [val id]) together with the reason it is reported. *)

Inductive internal_cause (envelope : Envelope) (e : CrossReferenceError)
  : Prop :=
  | dangling_evidence_ref (fs : list Finding) (f : Finding)
      (refs : list string) :
      findings envelope = val fs →
      f ∈ fs →
      evidence_refs f = val refs →
      target_id e ∈ refs →
      target_id e ∉ artifact_id_set envelope →
      internal_cause envelope e.

Inductive batch_cause (registry : EntityRegistry) (documents : Documents)
    (e : CrossReferenceError) : Prop :=
  | parent_unknown (envs : list Envelope) (E : Envelope) (p : Provenance) :
      doc_envelopes documents = val envs →
      E ∈ envs →
      provenance E = val p →
      parent_envelope_id p = val (target_id e) →
      hasEnvelope registry (target_id e) = false →
      batch_cause registry documents e
  | parent_is_self (envs : list Envelope) (E : Envelope) (p : Provenance) :
      doc_envelopes documents = val envs →
      E ∈ envs →
      provenance E = val p →
      parent_envelope_id p = val (target_id e) →
      target_id e = envelope_id E →
      batch_cause registry documents e
  | envelope_internal (envs : list Envelope) (E : Envelope) :
      doc_envelopes documents = val envs →
      E ∈ envs →
      internal_cause E e →
      batch_cause registry documents e
  | plan_envelope_unknown (ps : list Plan) (P : Plan) :
      doc_plans documents = val ps →
      P ∈ ps →
      source_envelope_id P = val (target_id e) →
      hasEnvelope registry (target_id e) = false →
      batch_cause registry documents e
  | receipt_plan_unknown (rs : list Receipt) (R : Receipt) :
      doc_receipts documents = val rs →
      R ∈ rs →
      r_plan_id R = val (target_id e) →
      hasPlan registry (target_id e) = false →
      batch_cause registry documents e
  | receipt_envelope_unknown (rs : list Receipt) (R : Receipt) :
      doc_receipts documents = val rs →
      R ∈ rs →
      r_source_envelope_id R = val (target_id e) →
      hasEnvelope registry (target_id e) = false →
      batch_cause registry documents e.

Inductive document_cause (registry : EntityRegistry)
  : ∀ schemaType, DocumentOf schemaType → CrossReferenceError → Prop :=
  | document_internal (E : Envelope) e :
      internal_cause E e →
      document_cause registry envelope E e
  | document_plan_envelope_unknown (P : Plan) e :
      source_envelope_id P = val (target_id e) →
      hasEnvelope registry (target_id e) = false →
      document_cause registry plan P e
  | document_receipt_plan_unknown (R : Receipt) e :
      r_plan_id R = val (target_id e) →
      hasPlan registry (target_id e) = false →
      document_cause registry receipt R e.

(** ** Scenarios

    Small document sets on which the properties below are exercised. *)

Definition plan_P1 : Plan :=
  {| plan_id := "P1"; source_envelope_id := undefined;
     receipt_id := undefined |}.

Definition receipt_R1 : Receipt :=
  {| r_receipt_id := "R1"; r_plan_id := val "P1";
     r_envelope_id := undefined; r_source_envelope_id := val "E404" |}.

Definition scenario_unregistered_envelope : Documents :=
  {| doc_envelopes := undefined; doc_plans := val [plan_P1];
     doc_receipts := val [receipt_R1] |}.

Definition envelope_self_parent : Envelope :=
  {| envelope_id := "E1"; artifacts := val []; findings := undefined;
     provenance := val {| parent_envelope_id := val "E1" |} |}.

Definition scenario_self_parent : Documents :=
  {| doc_envelopes := val [envelope_self_parent]; doc_plans := undefined;
     doc_receipts := undefined |}.

Definition envelope_root : Envelope :=
  {| envelope_id := "E0"; artifacts := val []; findings := null;
     provenance := undefined |}.

Definition envelope_child : Envelope :=
  {| envelope_id := "E2"; artifacts := null; findings := val [];
     provenance := val {| parent_envelope_id := val "E0" |} |}.

Definition scenario_parent_in_batch : Documents :=
  {| doc_envelopes := val [envelope_child; envelope_root];
     doc_plans := null; doc_receipts := null |}.

Definition receipt_envelope_id_only : Receipt :=
  {| r_receipt_id := "R1"; r_plan_id := val "P1";
     r_envelope_id := val "E404"; r_source_envelope_id := undefined |}.

Definition scenario_envelope_id_only : Documents :=
  {| doc_envelopes := undefined; doc_plans := val [plan_P1];
     doc_receipts := val [receipt_envelope_id_only] |}.

Definition envelope_dangling_finding : Envelope :=
  {| envelope_id := "E1"; artifacts := val [];
     findings := val [{| finding_id := "F1"; evidence_refs := val ["A1"] |}];
     provenance := null |}.

Definition scenario_all_absent : Documents :=
  {| doc_envelopes :=
       val [{| envelope_id := "E1"; artifacts := null; findings := undefined;
               provenance := val {| parent_envelope_id := null |} |};
            envelope_root];
     doc_plans := val [plan_P1];
     doc_receipts :=
       val [{| r_receipt_id := "R1"; r_plan_id := null;
               r_envelope_id := undefined;
               r_source_envelope_id := undefined |}] |}.

(** The result of a run, without the registry it leaves behind. *)
Definition result_of {A B} (c : Completion (A * B)) : option A :=
  match c with
  | Normal (res, _) => Some res
  | Throw _ => None
  end.

(** ** Sequences of registry calls

    A client drives the registry through its three registration methods;
    a sequence of such calls is run from left to right. *)

Inductive Registration : Type :=
  | RegisterEnvelope (id : string) (ref : EnvelopeRef)
  | RegisterPlan (id : string) (ref : PlanRef)
  | RegisterReceipt (id : string) (ref : ReceiptRef).

Definition register (registry : EntityRegistry) (call : Registration)
  : EntityRegistry :=
  match call with
  | RegisterEnvelope id ref => registerEnvelope registry id ref
  | RegisterPlan id ref => registerPlan registry id ref
  | RegisterReceipt id ref => registerReceipt registry id ref
  end.

Definition register_all (registry : EntityRegistry)
  (calls : list Registration) : EntityRegistry :=
  foldl register registry calls.

(** What a sequence of calls registers, query by query. *)
Definition registers_envelope (j : string) (call : Registration) : bool :=
  match call with
  | RegisterEnvelope id _ => bool_decide (id = j)
  | _ => false
  end.

Definition registers_plan (j : string) (call : Registration) : bool :=
  match call with
  | RegisterPlan id _ => bool_decide (id = j)
  | _ => false
  end.

Definition registers_receipt (j : string) (call : Registration) : bool :=
  match call with
  | RegisterReceipt id _ => bool_decide (id = j)
  | _ => false
  end.

Definition registers_artifact (a : string) (call : Registration) : bool :=
  match call with
  | RegisterEnvelope _ ref => bool_decide (a ∈ artifact_ids ref)
  | _ => false
  end.

(** The owner recorded for an artifact: the private [artifacts] map. *)
Definition artifact_owner (registry : EntityRegistry) (a : string)
  : option string :=
  aref_envelope_id <$> reg_artifacts registry !! a.

(** ** Evidence references and declared artifacts *)

(** All evidence references of an envelope, in document order. *)
Definition all_evidence_refs (envelope : Envelope) : list string :=
  flat_map (λ finding, or_empty (evidence_refs finding))
    (or_empty (findings envelope)).

(** [ref] is the non-empty identifier of an artifact of the envelope. *)
Definition declares_artifact (envelope : Envelope) (ref : string) : Prop :=
  ref ≠ EmptyString ∧
  ∃ a, a ∈ or_empty (artifacts envelope) ∧ artifact_id a = ref.

(** The same envelope with another artifact list. *)
Definition with_artifacts (envelope : Envelope) (arts : Js (list Artifact))
  : Envelope :=
  {| envelope_id := envelope_id envelope;
     artifacts := arts;
     findings := findings envelope;
     provenance := provenance envelope |}.

(** ** A batch as a sequence of registry calls, and what it needs *)

(** The registration phase of [validateCrossReferences], call by call. *)
Definition batch_calls (documents : Documents) : list Registration :=
  map (λ E, RegisterEnvelope (envelope_id E) (envelope_ref E))
    (or_empty (doc_envelopes documents)) ++
  map (λ P, RegisterPlan (plan_id P)
              {| pref_envelope_id := source_envelope_id P;
                 pref_receipt_id := receipt_id P |})
    (or_empty (doc_plans documents)) ++
  map (λ R, RegisterReceipt (r_receipt_id R)
              {| rref_plan_id := r_plan_id R;
                 rref_envelope_id := r_envelope_id R |})
    (or_empty (doc_receipts documents)).

(** An identifier resolves for a batch when it is registered already or one
    of the batch's documents carries it. *)
Definition known_envelope (registry : EntityRegistry) (documents : Documents)
    (id : string) : Prop :=
  hasEnvelope registry id = true ∨
  id ∈ map envelope_id (or_empty (doc_envelopes documents)).

Definition known_plan (registry : EntityRegistry) (documents : Documents)
    (id : string) : Prop :=
  hasPlan registry id = true ∨
  id ∈ map plan_id (or_empty (doc_plans documents)).

(** The references of a batch are consistent: every non-empty reference
    resolves, no envelope is its own parent, and every evidence reference
    names an artifact of its own envelope. *)
Record batch_consistent (registry : EntityRegistry) (documents : Documents)
  : Prop := {
  parents_known : ∀ E p,
    E ∈ or_empty (doc_envelopes documents) →
    parent_of E = val p → p ≠ EmptyString →
    known_envelope registry documents p;
  no_self_parent : ∀ E,
    E ∈ or_empty (doc_envelopes documents) →
    parent_of E ≠ val (envelope_id E);
  evidence_resolves : ∀ E ref,
    E ∈ or_empty (doc_envelopes documents) →
    ref ∈ all_evidence_refs E → declares_artifact E ref;
  plan_envelopes_known : ∀ P e,
    P ∈ or_empty (doc_plans documents) →
    source_envelope_id P = val e → e ≠ EmptyString →
    known_envelope registry documents e;
  receipt_plans_known : ∀ R p,
    R ∈ or_empty (doc_receipts documents) →
    r_plan_id R = val p → p ≠ EmptyString →
    known_plan registry documents p;
  receipt_envelopes_known : ∀ R e,
    R ∈ or_empty (doc_receipts documents) →
    r_source_envelope_id R = val e → e ≠ EmptyString →
    known_envelope registry documents e;
}.

(** What an error of a batch run says about the registry [registry] the
    run leaves behind. *)
Definition sound_error (registry : EntityRegistry) (e : CrossReferenceError)
  : Prop :=
  match err_type e with
  | missing_reference =>
      target_schema e = "artifact" ∨
      (target_schema e = "evidence-envelope" ∧
       hasEnvelope registry (target_id e) = false) ∨
      (target_schema e = "procedure-plan" ∧
       hasPlan registry (target_id e) = false)
  | circular_reference =>
      source_id e = target_id e ∧
      field e = "provenance.parent_envelope_id" ∧
      hasEnvelope registry (target_id e) = true
  | invalid_reference => False
  end.

(** ** Schema validator ([ContractValidator], lib/validator)

    The Ajv instance is external: a call [ajv.validate(schemaName, data)]
    either throws or returns its verdict and leaves its error objects in
    [ajv.errors] ([null] or absent when there are none). *)

Record AjvError : Type := {
  instancePath : Js string;
  ajv_message : Js string;
  keyword : string;
}.

Record ValidationError : Type := {
  path : Js string;
  ve_message : Js string;
  ve_keyword : string;
}.

(** [{ valid, errors? }] *)
Record ValidationResult : Type := {
  vr_valid : bool;
  vr_errors : Js (list ValidationError);
}.

Definition validate {Data : Type}
    (ajv : string → Data → Completion (bool * Js (list AjvError)))
    (schemaName : string) (data : Data) : Completion ValidationResult :=
  verdict ← ajv schemaName data;
  let '(valid, ajv_errors) := (verdict : bool * Js (list AjvError)) in
  if valid then Normal {| vr_valid := true; vr_errors := undefined |}
  else
    Normal
      {| vr_valid := false;
         vr_errors :=
           opt_chain ajv_errors (λ errs,
             val (map (λ err,
                         {| path := js_or (instancePath err) (val "/");
                            ve_message :=
                              js_or (ajv_message err) (val "Unknown error");
                            ve_keyword := keyword err |}) errs)) |}.

(** An Ajv instance that rejects every document at its root, without a
    message. *)
Definition ajv_rejecting (schemaName : string) (data : unit)
  : Completion (bool * Js (list AjvError)) :=
  Normal (false,
          val [{| instancePath := val EmptyString;
                  ajv_message := undefined;
                  keyword := "required" |}]).

(** * Properties *)

(** ** Loops that cannot throw *)

Section Loops.
Context {A S : Type}.

Lemma js_or_empty {B} (x : Js (list B)) :
  js_or x (val []) = val (or_empty x).
Proof. by destruct x. Qed.

Lemma iterate_foldl (body : A → S → Completion S) (step : S → A → S) l s :
  (∀ x s, body x s = Normal (step s x)) →
  iterate body l s = Normal (foldl step s l).
Proof.
  intros Hbody. revert s.
  induction l as [|x l IH]; intros s; simpl; [done|].
  rewrite Hbody. apply IH.
Qed.

Lemma for_of_foldl (body : A → S → Completion S) (step : S → A → S) xs s :
  (∀ x s, body x s = Normal (step s x)) →
  for_of (js_or xs (val [])) body s = Normal (foldl step s (or_empty xs)).
Proof. intros Hbody. rewrite js_or_empty. by apply iterate_foldl. Qed.
End Loops.

Lemma foldl_push {A B} (g : A → list B) (l : list A) (acc : list B) :
  foldl (λ acc x, acc ++ g x) acc l = acc ++ flat_map g l.
Proof.
  revert acc. induction l as [|x l IH]; intros acc; simpl.
  - by rewrite app_nil_r.
  - by rewrite IH, app_assoc.
Qed.

Lemma foldl_push2 {A B C} (g : A → list B) (h : A → list C) (l : list A)
    (acc : list B) (acc' : list C) :
  foldl (λ '(acc, acc') x, (acc ++ g x, acc' ++ h x)) (acc, acc') l =
  (acc ++ flat_map g l, acc' ++ flat_map h l).
Proof.
  revert acc acc'. induction l as [|x l IH]; intros acc acc'; simpl.
  - by rewrite !app_nil_r.
  - by rewrite IH, !app_assoc.
Qed.

(** ** The three entry points in closed form *)

Lemma validateEnvelopeInternalRefs_eq (envelope : Envelope) :
  validateEnvelopeInternalRefs envelope =
  Normal (mk_result (internal_errors envelope) (internal_warnings envelope)).
Proof.
  unfold validateEnvelopeInternalRefs.
  rewrite (js_or_empty (artifacts envelope)). simpl.
  rewrite (for_of_foldl _
    (λ errors finding,
       errors ++ flat_map (ref_errors envelope finding)
                   (or_empty (evidence_refs finding)))).
  - simpl. by rewrite foldl_push.
  - intros finding errors.
    rewrite (for_of_foldl _
      (λ errors ref, errors ++ ref_errors envelope finding ref)).
    + by rewrite foldl_push.
    + intros ref errors'. unfold ref_errors, artifact_id_set.
      case_bool_decide; simpl; [by rewrite app_nil_r|done].
Qed.

Lemma validateCrossReferences_eq (registry : EntityRegistry)
    (documents : Documents) :
  validateCrossReferences registry documents =
  let registry' := register_documents registry documents in
  Normal (mk_result (batch_errors registry' documents)
            (batch_warnings documents), registry').
Proof.
  unfold validateCrossReferences.
  rewrite (for_of_foldl _
    (λ registry envelope,
       registerEnvelope registry (envelope_id envelope)
         (envelope_ref envelope))); cycle 1.
  { intros e r. by rewrite (js_or_empty (artifacts e)). }
  simpl.
  rewrite (for_of_foldl _
    (λ registry plan,
       registerPlan registry (plan_id plan)
         {| pref_envelope_id := source_envelope_id plan;
            pref_receipt_id := receipt_id plan |})) by done.
  simpl.
  rewrite (for_of_foldl _
    (λ registry receipt,
       registerReceipt registry (r_receipt_id receipt)
         {| rref_plan_id := r_plan_id receipt;
            rref_envelope_id := r_envelope_id receipt |})) by done.
  simpl. fold (register_documents registry documents).
  set (registry' := register_documents registry documents).
  rewrite (for_of_foldl _
    (λ '(errors, warnings) envelope,
       (errors ++ envelope_errors registry' envelope,
        warnings ++ internal_warnings envelope))); cycle 1.
  { intros e [errs warns]. rewrite validateEnvelopeInternalRefs_eq. simpl.
    unfold envelope_errors, parent_errors. fold (parent_of e).
    do 2 f_equal.
    destruct (unresolved _ _), (strict_eq _ _); simpl;
      by rewrite <- ?app_assoc. }
  rewrite foldl_push2. simpl.
  rewrite (for_of_foldl _
    (λ errors plan, errors ++ plan_errors batch_plan_msg registry' plan));
    cycle 1.
  { intros p errs. unfold plan_errors, batch_plan_msg.
    destruct (unresolved _ _); [done|by rewrite app_nil_r]. }
  rewrite foldl_push. simpl.
  rewrite (for_of_foldl _
    (λ errors receipt, errors ++ receipt_errors registry' receipt)); cycle 1.
  { intros r errs.
    unfold receipt_errors, receipt_plan_errors, receipt_envelope_errors,
      batch_receipt_msg.
    destruct (unresolved (hasPlan _) _), (unresolved (hasEnvelope _) _);
      simpl; by rewrite <- ?app_assoc, ?app_nil_r. }
  rewrite foldl_push. simpl.
  unfold batch_errors, batch_warnings. by rewrite <- app_assoc.
Qed.

Lemma validateDocumentRefs_envelope_eq (registry : EntityRegistry)
    (document : Envelope) :
  validateDocumentRefs registry envelope document =
  Normal (mk_result (internal_errors document)
            (internal_warnings document ++
             if unresolved (hasEnvelope registry) (parent_of document)
             then [parent_not_in_registry (parent_of document)] else [])).
Proof.
  simpl. rewrite validateEnvelopeInternalRefs_eq. simpl.
  fold (parent_of document).
  destruct (unresolved _ _); [done|by rewrite app_nil_r].
Qed.

Lemma validateDocumentRefs_plan_eq (registry : EntityRegistry)
    (document : Plan) :
  validateDocumentRefs registry plan document =
  Normal (mk_result (plan_errors (λ _, "Plan") registry document) []).
Proof. simpl. unfold plan_errors. by destruct (unresolved _ _). Qed.

Lemma validateDocumentRefs_receipt_eq (registry : EntityRegistry)
    (document : Receipt) :
  validateDocumentRefs registry receipt document =
  Normal (mk_result
            (receipt_plan_errors (λ _, "Receipt") registry document) []).
Proof. simpl. unfold receipt_plan_errors. by destruct (unresolved _ _). Qed.

(** ** The registry *)

Lemma Map_has_insert {V} (m : gmap string V) (k j : string) (v : V) :
  Map_has (<[k := v]> m) j = bool_decide (k = j) || Map_has m j.
Proof.
  unfold Map_has. rewrite lookup_insert.
  case_decide; by case_bool_decide.
Qed.

Lemma Map_has_empty {V} (j : string) : Map_has (∅ : gmap string V) j = false.
Proof. unfold Map_has. by rewrite lookup_empty. Qed.

Lemma set_artifacts_envelopes id l registry :
  reg_envelopes (set_artifacts id registry l) = reg_envelopes registry.
Proof.
  revert registry. induction l as [|a l IH]; intros r; [done|].
  simpl. by rewrite IH.
Qed.

Lemma set_artifacts_plans id l registry :
  reg_plans (set_artifacts id registry l) = reg_plans registry.
Proof.
  revert registry. induction l as [|a l IH]; intros r; [done|].
  simpl. by rewrite IH.
Qed.

Lemma set_artifacts_has id l registry a :
  hasArtifact (set_artifacts id registry l) a =
  bool_decide (a ∈ l) || hasArtifact registry a.
Proof.
  revert registry. induction l as [|b l IH]; intros r.
  - by rewrite bool_decide_eq_false_2 by apply not_elem_of_nil.
  - change (set_artifacts id r (b :: l))
      with (set_artifacts id (set_artifact r b id) l).
    rewrite IH. unfold hasArtifact, set_artifact. simpl.
    rewrite Map_has_insert.
    apply eq_true_iff_eq.
    rewrite !orb_true_iff, !bool_decide_eq_true, elem_of_cons.
    intuition congruence.
Qed.

Lemma registerEnvelope_eq registry id ref :
  registerEnvelope registry id ref =
  set_artifacts id
    {| reg_envelopes := <[id := ref]> (reg_envelopes registry);
       reg_plans := reg_plans registry;
       reg_receipts := reg_receipts registry;
       reg_artifacts := reg_artifacts registry |}
    (artifact_ids ref).
Proof. reflexivity. Qed.

Lemma hasEnvelope_registerEnvelope registry id ref j :
  hasEnvelope (registerEnvelope registry id ref) j =
  bool_decide (id = j) || hasEnvelope registry j.
Proof.
  unfold hasEnvelope.
  rewrite registerEnvelope_eq, set_artifacts_envelopes.
  apply Map_has_insert.
Qed.

Lemma hasPlan_registerEnvelope registry id ref j :
  hasPlan (registerEnvelope registry id ref) j = hasPlan registry j.
Proof.
  unfold hasPlan. by rewrite registerEnvelope_eq, set_artifacts_plans.
Qed.

Lemma hasArtifact_registerEnvelope registry id ref a :
  hasArtifact (registerEnvelope registry id ref) a =
  bool_decide (a ∈ artifact_ids ref) || hasArtifact registry a.
Proof.
  by rewrite registerEnvelope_eq, set_artifacts_has.
Qed.

Lemma getEnvelope_registerEnvelope registry id ref :
  getEnvelope (registerEnvelope registry id ref) id = Some ref.
Proof.
  unfold getEnvelope.
  rewrite registerEnvelope_eq, set_artifacts_envelopes.
  apply lookup_insert_eq.
Qed.

(** C2 (as amended): registering the envelope identifier [E] a second time
    replaces the stored envelope projection, but the artifact index only
    grows: afterwards [hasArtifact a] holds exactly when [a] is an artifact
    of the second registration, of the first registration, or was indexed
    before. *)
Theorem C2_reregistration_keeps_artifacts
    (registry : EntityRegistry) (E : string) (first second : EnvelopeRef)
    (a : string) :
  let registry' :=
    registerEnvelope (registerEnvelope registry E first) E second in
  getEnvelope registry' E = Some second ∧
  (hasArtifact registry' a = true ↔
   a ∈ artifact_ids second ∨ a ∈ artifact_ids first ∨
   hasArtifact registry a = true).
Proof.
  simpl. split; [apply getEnvelope_registerEnvelope|].
  rewrite !hasArtifact_registerEnvelope, !orb_true_iff, !bool_decide_eq_true.
  done.
Qed.

(** C2 (as stated) fails: after registering ["E"] with artifact ["A1"] and
    then again with artifact ["A2"], [hasArtifact "A1"] is still true
    although ["A1"] is not an artifact of the second registration. *)
Lemma C2_stale_artifact_counterexample :
  let first := {| artifact_ids := ["A1"]; ref_parent_envelope_id := undefined |} in
  let second := {| artifact_ids := ["A2"]; ref_parent_envelope_id := undefined |} in
  let registry' :=
    registerEnvelope (registerEnvelope new_registry "E" first) "E" second in
  ¬ (hasArtifact registry' "A1" = true ↔ "A1" ∈ artifact_ids second).
Proof.
  simpl. intros [Hin _].
  assert (H : "A1" ∈ ["A2"]) by (apply Hin; vm_compute; reflexivity).
  apply list_elem_of_singleton in H. discriminate H.
Qed.

(** C8: after [clear()] every presence query answers [false] for every
    identifier (in particular for every identifier registered before), the
    registry is the initial empty registry, and clearing an empty registry
    leaves it empty. *)
Theorem C8_clear_empties (registry : EntityRegistry) (id : string) :
  hasEnvelope (clear registry) id = false ∧
  hasPlan (clear registry) id = false ∧
  hasReceipt (clear registry) id = false ∧
  hasArtifact (clear registry) id = false ∧
  clear registry = new_registry ∧
  clear new_registry = new_registry.
Proof.
  unfold hasEnvelope, hasPlan, hasReceipt, hasArtifact, clear. simpl.
  by rewrite !Map_has_empty.
Qed.

(** C7: running the batch validator on a document set from a cleared
    registry, clearing the registry it leaves behind, and running it again
    on the same document set gives the same result: the same validity
    flag, the same errors and the same warnings, in the same order. *)
Theorem C7_batch_idempotent (registry : EntityRegistry) (documents : Documents) :
  ∃ res registry1 registry2,
    validateCrossReferences (clear registry) documents =
      Normal (res, registry1) ∧
    validateCrossReferences (clear registry1) documents =
      Normal (res, registry2).
Proof.
  rewrite validateCrossReferences_eq. simpl.
  eexists _, _, _. split; [reflexivity|].
  rewrite validateCrossReferences_eq. simpl. reflexivity.
Qed.

(** ** The registry after the registration phase *)

Lemma hasEnvelope_register_envelopes (envs : list Envelope) registry j :
  hasEnvelope
    (foldl (λ registry envelope,
              registerEnvelope registry (envelope_id envelope)
                (envelope_ref envelope)) registry envs) j =
  hasEnvelope registry j || bool_decide (j ∈ map envelope_id envs).
Proof.
  revert registry. induction envs as [|E envs IH]; intros r.
  - rewrite bool_decide_eq_false_2 by apply not_elem_of_nil.
    by rewrite orb_false_r.
  - cbn [foldl map]. rewrite IH, hasEnvelope_registerEnvelope.
    apply eq_true_iff_eq.
    rewrite !orb_true_iff, !bool_decide_eq_true, elem_of_cons.
    intuition congruence.
Qed.

Lemma hasPlan_register_envelopes (envs : list Envelope) registry j :
  hasPlan
    (foldl (λ registry envelope,
              registerEnvelope registry (envelope_id envelope)
                (envelope_ref envelope)) registry envs) j =
  hasPlan registry j.
Proof.
  revert registry. induction envs as [|E envs IH]; intros r; simpl; [done|].
  by rewrite IH, hasPlan_registerEnvelope.
Qed.

Lemma hasPlan_register_plans (ps : list Plan) registry j :
  hasPlan
    (foldl (λ registry plan,
              registerPlan registry (plan_id plan)
                {| pref_envelope_id := source_envelope_id plan;
                   pref_receipt_id := receipt_id plan |}) registry ps) j =
  hasPlan registry j || bool_decide (j ∈ map plan_id ps).
Proof.
  revert registry. induction ps as [|P ps IH]; intros r.
  - rewrite bool_decide_eq_false_2 by apply not_elem_of_nil.
    by rewrite orb_false_r.
  - cbn [foldl map]. rewrite IH. unfold hasPlan at 1, registerPlan.
    cbn [reg_plans].
    rewrite Map_has_insert. fold (hasPlan r j).
    apply eq_true_iff_eq.
    rewrite !orb_true_iff, !bool_decide_eq_true, elem_of_cons.
    intuition congruence.
Qed.

Lemma reg_envelopes_register_plans (ps : list Plan) registry :
  reg_envelopes
    (foldl (λ registry plan,
              registerPlan registry (plan_id plan)
                {| pref_envelope_id := source_envelope_id plan;
                   pref_receipt_id := receipt_id plan |}) registry ps) =
  reg_envelopes registry.
Proof.
  revert registry. induction ps as [|P ps IH]; intros r; simpl; [done|].
  by rewrite IH.
Qed.

Lemma reg_register_receipts (rs : list Receipt) registry :
  let registry' :=
    foldl (λ registry receipt,
             registerReceipt registry (r_receipt_id receipt)
               {| rref_plan_id := r_plan_id receipt;
                  rref_envelope_id := r_envelope_id receipt |}) registry rs in
  reg_envelopes registry' = reg_envelopes registry ∧
  reg_plans registry' = reg_plans registry.
Proof.
  revert registry. induction rs as [|R rs IH]; intros r; simpl; [done|].
  destruct (IH (registerReceipt r (r_receipt_id R)
    {| rref_plan_id := r_plan_id R; rref_envelope_id := r_envelope_id R |}))
    as [-> ->].
  done.
Qed.

Lemma hasEnvelope_register_documents registry documents j :
  hasEnvelope (register_documents registry documents) j =
  hasEnvelope registry j ||
  bool_decide (j ∈ map envelope_id (or_empty (doc_envelopes documents))).
Proof.
  unfold register_documents, hasEnvelope.
  destruct (reg_register_receipts (or_empty (doc_receipts documents))
    (foldl (λ registry plan,
              registerPlan registry (plan_id plan)
                {| pref_envelope_id := source_envelope_id plan;
                   pref_receipt_id := receipt_id plan |})
       (foldl (λ registry envelope,
                 registerEnvelope registry (envelope_id envelope)
                   (envelope_ref envelope))
          registry (or_empty (doc_envelopes documents)))
       (or_empty (doc_plans documents)))) as [-> _].
  rewrite reg_envelopes_register_plans.
  apply hasEnvelope_register_envelopes.
Qed.

Lemma hasPlan_register_documents registry documents j :
  hasPlan (register_documents registry documents) j =
  hasPlan registry j ||
  bool_decide (j ∈ map plan_id (or_empty (doc_plans documents))).
Proof.
  unfold register_documents, hasPlan at 1.
  destruct (reg_register_receipts (or_empty (doc_receipts documents))
    (foldl (λ registry plan,
              registerPlan registry (plan_id plan)
                {| pref_envelope_id := source_envelope_id plan;
                   pref_receipt_id := receipt_id plan |})
       (foldl (λ registry envelope,
                 registerEnvelope registry (envelope_id envelope)
                   (envelope_ref envelope))
          registry (or_empty (doc_envelopes documents)))
       (or_empty (doc_plans documents)))) as [_ ->].
  fold (hasPlan
    (foldl (λ registry plan,
              registerPlan registry (plan_id plan)
                {| pref_envelope_id := source_envelope_id plan;
                   pref_receipt_id := receipt_id plan |})
       (foldl (λ registry envelope,
                 registerEnvelope registry (envelope_id envelope)
                   (envelope_ref envelope))
          registry (or_empty (doc_envelopes documents)))
       (or_empty (doc_plans documents))) j).
  by rewrite hasPlan_register_plans, hasPlan_register_envelopes.
Qed.

(** ** Guards and membership *)

Lemma unresolved_val (has : string → bool) (id : string) :
  unresolved has (val id) = truthy id && negb (has id).
Proof. reflexivity. Qed.

Lemma unresolved_present (has : string → bool) (v : Js string) :
  unresolved has v = true → v = val (to_String v) ∧ has (to_String v) = false.
Proof.
  unfold unresolved. intros [Ht Hh]%andb_true_iff.
  destruct v; try discriminate Ht.
  split; [done|]. by apply negb_true_iff.
Qed.

Lemma truthy_nonempty (s : string) : s ≠ EmptyString → truthy s = true.
Proof. by destruct s. Qed.

Lemma elem_of_flat_map {A B} (f : A → list B) (l : list A) (y : B) :
  y ∈ flat_map f l ↔ ∃ x, x ∈ l ∧ y ∈ f x.
Proof.
  induction l as [|x l IH]; simpl.
  - split; [by intros ?%not_elem_of_nil|].
    by intros (x & ?%not_elem_of_nil & _).
  - rewrite elem_of_app, IH. split.
    + intros [Hy|(x' & Hx' & Hy)]; [exists x|exists x'];
        by rewrite elem_of_cons; auto.
    + intros (x' & [->|Hx']%elem_of_cons & Hy); eauto.
Qed.

Lemma or_empty_val {A} (x : Js (list A)) (y : A) :
  y ∈ or_empty x → ∃ l, x = val l ∧ y ∈ l.
Proof.
  destruct x; simpl; intros H; try (by apply not_elem_of_nil in H).
  eauto.
Qed.

Lemma internal_errors_inv (E : Envelope) (e : CrossReferenceError) :
  e ∈ internal_errors E →
  ∃ f ref,
    f ∈ or_empty (findings E) ∧
    ref ∈ or_empty (evidence_refs f) ∧
    (ref ∉ artifact_id_set E) ∧
    (e = finding_error (envelope_id E) (finding_id f) ref).
Proof.
  unfold internal_errors. intros (f & Hf & He)%elem_of_flat_map.
  apply elem_of_flat_map in He as (ref & Href & He).
  unfold ref_errors in He. case_bool_decide.
  - by apply not_elem_of_nil in He.
  - apply list_elem_of_singleton in He. eauto 10.
Qed.

Lemma internal_errors_cause (E : Envelope) (e : CrossReferenceError) :
  e ∈ internal_errors E → internal_cause E e.
Proof.
  intros (f & ref & Hf & Href & Hnot & ->)%internal_errors_inv.
  apply or_empty_val in Hf as (fs & Hfs & Hf).
  apply or_empty_val in Href as (refs & Hrefs & Href).
  by eapply dangling_evidence_ref.
Qed.

Lemma internal_errors_field (E : Envelope) (e : CrossReferenceError) :
  e ∈ internal_errors E → field e ≠ "provenance.parent_envelope_id".
Proof.
  intros (f & ref & _ & _ & _ & ->)%internal_errors_inv. discriminate.
Qed.

Lemma parent_of_val (E : Envelope) (parentId : string) :
  parent_of E = val parentId →
  ∃ p, provenance E = val p ∧ parent_envelope_id p = val parentId.
Proof.
  unfold parent_of. destruct (provenance E) as [| |p]; try discriminate.
  eauto.
Qed.

(** ** Claims about the batch validator *)

(** C1: in every batch containing a receipt [R] whose plan identifier is
    registered (before the call or by the batch) and whose envelope
    reference ["E404"] is not a registered envelope, the validator
    completes, and what [R] adds to the error list is exactly one error:
    the [missing_reference] error of the envelope reference.  The error
    list of the run is the errors of the envelopes, of the plans and of the
    receipts before [R], then that one error, then the errors of the
    receipts after [R]. *)
Theorem C1_receipt_unregistered_envelope
    (registry : EntityRegistry) (documents : Documents)
    (before after : list Receipt) (R : Receipt) (planId : string) :
  doc_receipts documents = val (before ++ R :: after) →
  r_plan_id R = val planId →
  hasPlan registry planId = true ∨
    planId ∈ map plan_id (or_empty (doc_plans documents)) →
  r_source_envelope_id R = val "E404" →
  hasEnvelope registry "E404" = false →
  "E404" ∉ map envelope_id (or_empty (doc_envelopes documents)) →
  let e :=
    {| err_type := missing_reference;
       source_schema := "receipt";
       source_id := r_receipt_id R;
       target_schema := "evidence-envelope";
       target_id := "E404";
       field := "source_envelope_id";
       message := "Receipt " +:+ quoted (r_receipt_id R) +:+
                  " references non-existent envelope " +:+ quoted "E404" |} in
  ∃ res registry',
    validateCrossReferences registry documents = Normal (res, registry') ∧
    receipt_errors registry' R = [e] ∧
    errors res =
      flat_map (envelope_errors registry')
        (or_empty (doc_envelopes documents)) ++
      flat_map (plan_errors batch_plan_msg registry')
        (or_empty (doc_plans documents)) ++
      flat_map (receipt_errors registry') before ++
      [e] ++
      flat_map (receipt_errors registry') after.
Proof.
  intros Hrs Hplan Hreg Henv Hno Hnot e.
  rewrite validateCrossReferences_eq. cbn zeta.
  set (registry' := register_documents registry documents).
  assert (HR : receipt_errors registry' R = [e]).
  { unfold receipt_errors, receipt_plan_errors, receipt_envelope_errors.
    rewrite Hplan, Henv, !unresolved_val.
    unfold registry'.
    rewrite hasPlan_register_documents, hasEnvelope_register_documents.
    rewrite Hno.
    rewrite (bool_decide_eq_false_2 _ Hnot).
    assert (hasPlan registry planId ||
            bool_decide (planId ∈ map plan_id (or_empty (doc_plans documents)))
            = true) as ->.
    { apply orb_true_iff. rewrite bool_decide_eq_true. done. }
    by rewrite andb_false_r. }
  eexists _, _. split; [reflexivity|]. split; [exact HR|].
  simpl. unfold batch_errors. rewrite Hrs. simpl.
  by rewrite flat_map_app; simpl; rewrite HR.
Qed.

Lemma C1_receipt_unregistered_envelope_witness :
  ∃ res registry',
    validateCrossReferences new_registry scenario_unregistered_envelope =
      Normal (res, registry') ∧
    errors res =
      [{| err_type := missing_reference;
          source_schema := "receipt";
          source_id := "R1";
          target_schema := "evidence-envelope";
          target_id := "E404";
          field := "source_envelope_id";
          message := "Receipt " +:+ quoted "R1" +:+
                     " references non-existent envelope " +:+
                     quoted "E404" |}].
Proof.
  destruct (C1_receipt_unregistered_envelope new_registry
              scenario_unregistered_envelope [] [] receipt_R1 "P1")
    as (res & registry' & Hrun & _ & Herrors).
  - reflexivity.
  - reflexivity.
  - right. simpl. apply list_elem_of_singleton. reflexivity.
  - reflexivity.
  - vm_compute. reflexivity.
  - simpl. apply not_elem_of_nil.
  - exists res, registry'. split; [exact Hrun|].
    rewrite Herrors. simpl.
    unfold plan_errors. simpl. reflexivity.
Defined.

(** C3: in every batch containing an envelope [E] whose declared parent is
    [E]'s own identifier, the validator completes and is invalid, and the
    parent reference of [E] yields exactly one error: the
    [circular_reference] error with [source_id = target_id = E]'s
    identifier on [provenance.parent_envelope_id].  No
    [missing_reference] error is reported for that field: the only other
    errors of [E] are those of its findings, none of which is on that
    field. *)
Theorem C3_self_parent_is_circular
    (registry : EntityRegistry) (documents : Documents)
    (before after : list Envelope) (E : Envelope) :
  doc_envelopes documents = val (before ++ E :: after) →
  parent_of E = val (envelope_id E) →
  let e :=
    {| err_type := circular_reference;
       source_schema := "evidence-envelope";
       source_id := envelope_id E;
       target_schema := "evidence-envelope";
       target_id := envelope_id E;
       field := "provenance.parent_envelope_id";
       message := "Envelope " +:+ quoted (envelope_id E) +:+
                  " references itself as parent" |} in
  ∃ res registry',
    validateCrossReferences registry documents = Normal (res, registry') ∧
    valid res = false ∧
    parent_errors registry' E = [e] ∧
    (∀ e', e' ∈ internal_errors E →
           field e' ≠ "provenance.parent_envelope_id") ∧
    errors res =
      flat_map (envelope_errors registry') before ++
      ([e] ++ internal_errors E) ++
      flat_map (envelope_errors registry') after ++
      flat_map (plan_errors batch_plan_msg registry')
        (or_empty (doc_plans documents)) ++
      flat_map (receipt_errors registry')
        (or_empty (doc_receipts documents)).
Proof.
  intros Henvs Hparent e.
  rewrite validateCrossReferences_eq. cbn zeta.
  set (registry' := register_documents registry documents).
  assert (HE : parent_errors registry' E = [e]).
  { unfold parent_errors. rewrite Hparent, unresolved_val.
    unfold registry'. rewrite hasEnvelope_register_documents, Henvs.
    rewrite (bool_decide_eq_true_2 (envelope_id E ∈ _)); cycle 1.
    { simpl. rewrite map_app, elem_of_app. right. simpl. apply elem_of_cons.
      by left. }
    rewrite orb_true_r, andb_false_r.
    unfold strict_eq. by rewrite bool_decide_eq_true_2. }
  assert (Herrors : batch_errors registry' documents =
      flat_map (envelope_errors registry') before ++
      ([e] ++ internal_errors E) ++
      flat_map (envelope_errors registry') after ++
      flat_map (plan_errors batch_plan_msg registry')
        (or_empty (doc_plans documents)) ++
      flat_map (receipt_errors registry')
        (or_empty (doc_receipts documents))).
  { unfold batch_errors. rewrite Henvs. simpl or_empty.
    rewrite flat_map_app. simpl flat_map.
    unfold envelope_errors at 2. rewrite HE.
    by rewrite <- !app_assoc. }
  eexists _, _. split; [reflexivity|].
  split; [|split; [exact HE|split; [apply internal_errors_field|exact Herrors]]].
  simpl. rewrite Herrors.
  by destruct (flat_map (envelope_errors registry') before).
Qed.

Lemma C3_self_parent_is_circular_witness :
  ∃ res registry',
    validateCrossReferences new_registry scenario_self_parent =
      Normal (res, registry') ∧
    valid res = false ∧
    errors res =
      [{| err_type := circular_reference;
          source_schema := "evidence-envelope";
          source_id := "E1";
          target_schema := "evidence-envelope";
          target_id := "E1";
          field := "provenance.parent_envelope_id";
          message := "Envelope " +:+ quoted "E1" +:+
                     " references itself as parent" |}].
Proof.
  destruct (C3_self_parent_is_circular new_registry scenario_self_parent
              [] [] envelope_self_parent)
    as (res & registry' & Hrun & Hvalid & _ & _ & Herrors).
  - reflexivity.
  - reflexivity.
  - exists res, registry'. split; [exact Hrun|]. split; [exact Hvalid|].
    rewrite Herrors. reflexivity.
Defined.

Lemma elem_of_if_singleton {A} (b : bool) (x y : A) :
  y ∈ (if b then [x] else []) → b = true ∧ y = x.
Proof.
  destruct b; [by intros ->%list_elem_of_singleton|].
  by intros ?%not_elem_of_nil.
Qed.

Lemma envelope_errors_cause registry documents (E : Envelope) e :
  E ∈ or_empty (doc_envelopes documents) →
  e ∈ envelope_errors registry E →
  batch_cause registry documents e.
Proof.
  intros (envs & Henvs & HE)%or_empty_val.
  unfold envelope_errors, parent_errors.
  rewrite !elem_of_app. intros [[He|He]|He].
  - apply elem_of_if_singleton in He as [Hun ->].
    apply unresolved_present in Hun as [Hp Hhas].
    destruct (parent_of_val _ _ Hp) as (p & Hprov & Hparent).
    by eapply parent_unknown.
  - apply elem_of_if_singleton in He as [Heq ->].
    apply bool_decide_eq_true in Heq.
    destruct (parent_of_val _ _ Heq) as (p & Hprov & Hparent).
    eapply parent_is_self; try done; simpl; by rewrite Heq.
  - eapply envelope_internal; try done. by apply internal_errors_cause.
Qed.

Lemma plan_errors_inv msg registry (P : Plan) e :
  e ∈ plan_errors msg registry P →
  source_envelope_id P = val (target_id e) ∧
  hasEnvelope registry (target_id e) = false.
Proof.
  unfold plan_errors. intros [Hun ->]%elem_of_if_singleton.
  by apply unresolved_present in Hun.
Qed.

Lemma receipt_plan_errors_inv msg registry (R : Receipt) e :
  e ∈ receipt_plan_errors msg registry R →
  r_plan_id R = val (target_id e) ∧ hasPlan registry (target_id e) = false.
Proof.
  unfold receipt_plan_errors. intros [Hun ->]%elem_of_if_singleton.
  by apply unresolved_present in Hun.
Qed.

Lemma receipt_envelope_errors_inv registry (R : Receipt) e :
  e ∈ receipt_envelope_errors registry R →
  r_source_envelope_id R = val (target_id e) ∧
  hasEnvelope registry (target_id e) = false.
Proof.
  unfold receipt_envelope_errors. intros [Hun ->]%elem_of_if_singleton.
  by apply unresolved_present in Hun.
Qed.

Lemma batch_errors_cause registry documents e :
  e ∈ batch_errors registry documents → batch_cause registry documents e.
Proof.
  unfold batch_errors. rewrite !elem_of_app, !elem_of_flat_map.
  intros [(E & HE & He)|[(P & HP & He)|(R & HR & He)]].
  - by eapply envelope_errors_cause.
  - apply or_empty_val in HP as (ps & Hps & HP).
    apply plan_errors_inv in He as [Hsrc Hhas].
    by eapply plan_envelope_unknown.
  - apply or_empty_val in HR as (rs & Hrs & HR).
    unfold receipt_errors in He. apply elem_of_app in He as [He|He].
    + apply receipt_plan_errors_inv in He as [Hsrc Hhas].
      by eapply receipt_plan_unknown.
    + apply receipt_envelope_errors_inv in He as [Hsrc Hhas].
      by eapply receipt_envelope_unknown.
Qed.

(** ** Claims about absent fields *)

(** C4: whatever optional fields of the documents are [undefined] or
    [null], each of the three entry points completes normally (no
    [TypeError]), and every error it reports is caused by a reference
    field that is present: a dangling evidence reference of a finding, a
    present parent that is unknown or is the envelope itself, or a present
    plan or envelope identifier that is unknown.  An absent field never
    yields an error. *)
Theorem C4_absent_fields_are_no_errors (registry : EntityRegistry) :
  (∀ E : Envelope, ∃ res,
     validateEnvelopeInternalRefs E = Normal res ∧
     ∀ e, e ∈ errors res → internal_cause E e) ∧
  (∀ documents : Documents, ∃ res registry',
     validateCrossReferences registry documents = Normal (res, registry') ∧
     ∀ e, e ∈ errors res → batch_cause registry' documents e) ∧
  (∀ (schemaType : SchemaType) (document : DocumentOf schemaType), ∃ res,
     validateDocumentRefs registry schemaType document = Normal res ∧
     ∀ e, e ∈ errors res →
          document_cause registry schemaType document e).
Proof.
  split; [|split].
  - intros E. rewrite validateEnvelopeInternalRefs_eq.
    eexists. split; [reflexivity|]. apply internal_errors_cause.
  - intros documents. rewrite validateCrossReferences_eq.
    eexists _, _. split; [reflexivity|]. apply batch_errors_cause.
  - intros [] document.
    + rewrite validateDocumentRefs_envelope_eq.
      eexists. split; [reflexivity|]. simpl. intros e He.
      by apply document_internal, internal_errors_cause.
    + rewrite validateDocumentRefs_plan_eq.
      eexists. split; [reflexivity|]. simpl.
      intros e [Hsrc Hhas]%plan_errors_inv.
      by apply document_plan_envelope_unknown.
    + rewrite validateDocumentRefs_receipt_eq.
      eexists. split; [reflexivity|]. simpl.
      intros e [Hsrc Hhas]%receipt_plan_errors_inv.
      by apply document_receipt_plan_unknown.
Qed.

(** ** Claims about the parent warning *)

Lemma internal_warnings_declared (E : Envelope) (parentId : string) :
  parent_of E = val parentId →
  parentId ≠ EmptyString →
  internal_warnings E = [parent_unverified (val parentId)].
Proof.
  intros Hparent Hne. unfold internal_warnings. rewrite Hparent.
  by destruct parentId.
Qed.

(** C9: in every batch, an envelope [E] that declares a (non-empty) parent
    identifier adds exactly one [unverified_reference] warning saying that
    the parent cannot be verified without a registry.  Nothing is assumed
    about the registry: the warning is there also when the parent is
    registered by the same batch. *)
Theorem C9_batch_keeps_internal_parent_warning
    (registry : EntityRegistry) (documents : Documents)
    (before after : list Envelope) (E : Envelope) (parentId : string) :
  doc_envelopes documents = val (before ++ E :: after) →
  parent_of E = val parentId →
  parentId ≠ EmptyString →
  let w :=
    {| warn_type := unverified_reference;
       warn_message := "Parent envelope " +:+ quoted parentId +:+
                       " cannot be verified without registry" |} in
  ∃ res registry',
    validateCrossReferences registry documents = Normal (res, registry') ∧
    warnings res =
      flat_map internal_warnings before ++ [w] ++
      flat_map internal_warnings after ∧
    w ∈ warnings res.
Proof.
  intros Henvs Hparent Hne w.
  rewrite validateCrossReferences_eq. cbn zeta.
  eexists _, _. split; [reflexivity|].
  assert (Hw : batch_warnings documents =
    flat_map internal_warnings before ++ [w] ++
    flat_map internal_warnings after).
  { unfold batch_warnings. rewrite Henvs. simpl or_empty.
    rewrite flat_map_app. simpl flat_map.
    by rewrite (internal_warnings_declared E parentId). }
  simpl. rewrite Hw. split; [done|].
  rewrite !elem_of_app. right. left. by apply list_elem_of_singleton.
Qed.

Lemma C9_batch_keeps_internal_parent_warning_witness :
  ∃ res registry',
    validateCrossReferences new_registry scenario_parent_in_batch =
      Normal (res, registry') ∧
    hasEnvelope registry' "E0" = true ∧
    errors res = [] ∧
    warnings res =
      [{| warn_type := unverified_reference;
          warn_message := "Parent envelope " +:+ quoted "E0" +:+
                          " cannot be verified without registry" |}].
Proof.
  destruct (C9_batch_keeps_internal_parent_warning new_registry
              scenario_parent_in_batch [] [envelope_root] envelope_child "E0")
    as (res & registry' & Hrun & Hwarnings & _).
  - reflexivity.
  - reflexivity.
  - discriminate.
  - exists res, registry'. split; [exact Hrun|].
    rewrite validateCrossReferences_eq in Hrun. cbn zeta in Hrun.
    injection Hrun as <- <-.
    split; [vm_compute; reflexivity|].
    split; [vm_compute; reflexivity|].
    reflexivity.
Defined.

(** C10: the incremental validator, on an envelope that declares a
    (non-empty) parent identifier, produces exactly two
    [unverified_reference] warnings when the parent is not in the registry
    (the one of the internal check, then the one of the registry check),
    and exactly one (the one of the internal check) when it is. *)
Theorem C10_envelope_warning_count
    (registry : EntityRegistry) (E : Envelope) (parentId : string) :
  parent_of E = val parentId →
  parentId ≠ EmptyString →
  let w1 :=
    {| warn_type := unverified_reference;
       warn_message := "Parent envelope " +:+ quoted parentId +:+
                       " cannot be verified without registry" |} in
  let w2 :=
    {| warn_type := unverified_reference;
       warn_message := "Parent envelope " +:+ quoted parentId +:+
                       " not in registry" |} in
  ∃ res,
    validateDocumentRefs registry envelope E = Normal res ∧
    warnings res = if hasEnvelope registry parentId then [w1] else [w1; w2].
Proof.
  intros Hparent Hne w1 w2.
  rewrite validateDocumentRefs_envelope_eq.
  eexists. split; [reflexivity|]. simpl.
  rewrite (internal_warnings_declared E parentId) by done.
  rewrite Hparent, unresolved_val, truthy_nonempty by done.
  by destruct (hasEnvelope registry parentId).
Qed.

Lemma C10_envelope_warning_count_witness :
  ∃ res,
    validateDocumentRefs new_registry envelope envelope_child = Normal res ∧
    length (warnings res) = 2.
Proof.
  destruct (C10_envelope_warning_count new_registry envelope_child "E0")
    as (res & Hrun & Hwarnings).
  - reflexivity.
  - discriminate.
  - exists res. split; [exact Hrun|].
    rewrite Hwarnings. reflexivity.
Defined.

(** C5: the incremental validator, on an envelope whose declared
    (non-empty) parent identifier is not known to the registry, reports the
    unresolved parent as an [unverified_reference] warning; its errors are
    exactly the errors of the internal check of the envelope, and none of
    them is on the parent field. *)
Theorem C5_unresolved_parent_is_a_warning
    (registry : EntityRegistry) (E : Envelope) (parentId : string) :
  parent_of E = val parentId →
  parentId ≠ EmptyString →
  hasEnvelope registry parentId = false →
  ∃ res internal,
    validateDocumentRefs registry envelope E = Normal res ∧
    validateEnvelopeInternalRefs E = Normal internal ∧
    errors res = errors internal ∧
    (∀ e, e ∈ errors res → field e ≠ "provenance.parent_envelope_id") ∧
    {| warn_type := unverified_reference;
       warn_message := "Parent envelope " +:+ quoted parentId +:+
                       " not in registry" |} ∈ warnings res.
Proof.
  intros Hparent Hne Hhas.
  rewrite validateDocumentRefs_envelope_eq, validateEnvelopeInternalRefs_eq.
  eexists _, _. split; [reflexivity|]. split; [reflexivity|]. simpl.
  split; [done|]. split; [apply internal_errors_field|].
  rewrite Hparent, unresolved_val, truthy_nonempty, Hhas by done. simpl.
  rewrite elem_of_app. right. by apply list_elem_of_singleton.
Qed.

Lemma C5_unresolved_parent_is_a_warning_witness :
  ∃ res,
    validateDocumentRefs new_registry envelope envelope_child = Normal res ∧
    errors res = [] ∧
    {| warn_type := unverified_reference;
       warn_message := "Parent envelope " +:+ quoted "E0" +:+
                       " not in registry" |} ∈ warnings res.
Proof.
  destruct (C5_unresolved_parent_is_a_warning new_registry envelope_child "E0")
    as (res & internal & Hrun & Hinternal & Herrors & _ & Hwarning).
  - reflexivity.
  - discriminate.
  - vm_compute. reflexivity.
  - exists res. split; [exact Hrun|]. split; [|exact Hwarning].
    rewrite Herrors.
    rewrite validateEnvelopeInternalRefs_eq in Hinternal.
    injection Hinternal as <-. reflexivity.
Defined.

(** ** The incremental receipt check *)

(** C6: the incremental validator, on a receipt, completes with no
    warning; it reports the [missing_reference] error of the plan
    reference when the plan identifier is declared (non-empty) and unknown
    to the registry, and no error otherwise.  The receipt's envelope
    references play no part: replacing them by any other values gives the
    same result. *)
Theorem C6_receipt_checks_plan_only
    (registry : EntityRegistry) (R : Receipt) :
  ∃ res,
    validateDocumentRefs registry receipt R = Normal res ∧
    warnings res = [] ∧
    errors res =
      match r_plan_id R with
      | val planId =>
          if truthy planId && negb (hasPlan registry planId)
          then [{| err_type := missing_reference;
                   source_schema := "receipt";
                   source_id := r_receipt_id R;
                   target_schema := "procedure-plan";
                   target_id := planId;
                   field := "plan_id";
                   message := "Receipt references non-existent plan " +:+
                              quoted planId |}]
          else []
      | _ => []
      end ∧
    ∀ envelopeId sourceEnvelopeId : Js string,
      validateDocumentRefs registry receipt
        {| r_receipt_id := r_receipt_id R;
           r_plan_id := r_plan_id R;
           r_envelope_id := envelopeId;
           r_source_envelope_id := sourceEnvelopeId |} = Normal res.
Proof.
  rewrite validateDocumentRefs_receipt_eq.
  eexists. split; [reflexivity|]. split; [reflexivity|]. split.
  - simpl. unfold receipt_plan_errors.
    destruct (r_plan_id R) as [| |planId]; reflexivity.
  - intros envelopeId sourceEnvelopeId.
    by rewrite validateDocumentRefs_receipt_eq.
Qed.

(** ** The scenarios, run *)

Example dangling_finding_run :
  validateEnvelopeInternalRefs envelope_dangling_finding =
  Normal
    {| valid := false;
       errors := [finding_error "E1" "F1" "A1"];
       warnings := [] |}.
Proof. vm_compute. reflexivity. Qed.

Example all_absent_run :
  result_of (validateCrossReferences new_registry scenario_all_absent) =
  Some {| valid := true; errors := []; warnings := [] |}.
Proof. vm_compute. reflexivity. Qed.

(** A receipt that carries its envelope reference in the field the
    registration phase reads ([envelope_id]) and not in the field the
    reference check reads ([source_envelope_id]) gets no error. *)
Example envelope_id_only_run :
  result_of (validateCrossReferences new_registry scenario_envelope_id_only) =
  Some {| valid := true; errors := []; warnings := [] |}.
Proof. vm_compute. reflexivity. Qed.

(** An empty parent identifier is falsy and is treated as no reference. *)
Example empty_parent_run :
  validateDocumentRefs new_registry envelope
    {| envelope_id := "E1"; artifacts := val []; findings := val [];
       provenance := val {| parent_envelope_id := val EmptyString |} |} =
  Normal {| valid := true; errors := []; warnings := [] |}.
Proof. vm_compute. reflexivity. Qed.

(** * Further properties of the registry *)

Lemma set_artifacts_receipts id l registry :
  reg_receipts (set_artifacts id registry l) = reg_receipts registry.
Proof.
  revert registry. induction l as [|a l IH]; intros r; [done|].
  simpl. by rewrite IH.
Qed.

Lemma set_artifacts_lookup id l registry a :
  reg_artifacts (set_artifacts id registry l) !! a =
  if bool_decide (a ∈ l) then Some {| aref_envelope_id := id |}
  else reg_artifacts registry !! a.
Proof.
  revert registry. induction l as [|b l IH]; intros r.
  - by rewrite bool_decide_eq_false_2 by apply not_elem_of_nil.
  - change (set_artifacts id r (b :: l))
      with (set_artifacts id (set_artifact r b id) l).
    rewrite IH. unfold set_artifact. cbn [reg_artifacts].
    destruct (decide (a ∈ l)) as [Hin|Hnin].
    + rewrite !bool_decide_eq_true_2; [done| |done].
      apply elem_of_cons. by right.
    + rewrite (bool_decide_eq_false_2 _ Hnin).
      destruct (decide (b = a)) as [->|Hne].
      * rewrite lookup_insert_eq, bool_decide_eq_true_2; [done|].
        apply elem_of_cons. by left.
      * rewrite lookup_insert_ne by done.
        rewrite bool_decide_eq_false_2; [done|].
        rewrite elem_of_cons. intros [?|?]; congruence.
Qed.

Lemma hasReceipt_registerEnvelope registry id ref j :
  hasReceipt (registerEnvelope registry id ref) j = hasReceipt registry j.
Proof.
  unfold hasReceipt. by rewrite registerEnvelope_eq, set_artifacts_receipts.
Qed.

(** X1: registering a plan is seen by [hasPlan] for exactly that
    identifier and by no other query; registering a receipt is seen by
    [hasReceipt] for exactly that identifier and by no other query. *)
Theorem register_plan_or_receipt_touches_one_index
    (registry : EntityRegistry) (id j : string) (p : PlanRef)
    (r : ReceiptRef) :
  (hasPlan (registerPlan registry id p) j =
     bool_decide (id = j) || hasPlan registry j ∧
   hasEnvelope (registerPlan registry id p) j = hasEnvelope registry j ∧
   hasReceipt (registerPlan registry id p) j = hasReceipt registry j ∧
   hasArtifact (registerPlan registry id p) j = hasArtifact registry j) ∧
  (hasReceipt (registerReceipt registry id r) j =
     bool_decide (id = j) || hasReceipt registry j ∧
   hasEnvelope (registerReceipt registry id r) j = hasEnvelope registry j ∧
   hasPlan (registerReceipt registry id r) j = hasPlan registry j ∧
   hasArtifact (registerReceipt registry id r) j = hasArtifact registry j).
Proof.
  unfold hasPlan, hasReceipt, hasEnvelope, hasArtifact, registerPlan,
    registerReceipt. cbn.
  by rewrite !Map_has_insert.
Qed.


(** X3: the artifact index records the last envelope that declared an
    artifact: after [registerEnvelope(id, ref)] every artifact of [ref] is
    owned by [id], whoever owned it before, and every other artifact keeps
    its owner. *)
Theorem registerEnvelope_artifact_owner
    (registry : EntityRegistry) (id a : string) (ref : EnvelopeRef) :
  artifact_owner (registerEnvelope registry id ref) a =
  if bool_decide (a ∈ artifact_ids ref) then Some id
  else artifact_owner registry a.
Proof.
  unfold artifact_owner.
  rewrite registerEnvelope_eq, set_artifacts_lookup. cbn [reg_artifacts].
  by case_bool_decide.
Qed.

Lemma register_has (registry : EntityRegistry) (call : Registration)
    (j : string) :
  hasEnvelope (register registry call) j =
    registers_envelope j call || hasEnvelope registry j ∧
  hasPlan (register registry call) j =
    registers_plan j call || hasPlan registry j ∧
  hasReceipt (register registry call) j =
    registers_receipt j call || hasReceipt registry j ∧
  hasArtifact (register registry call) j =
    registers_artifact j call || hasArtifact registry j.
Proof.
  destruct call as [id ref|id ref|id ref]; simpl.
  - by rewrite hasEnvelope_registerEnvelope, hasArtifact_registerEnvelope,
      hasPlan_registerEnvelope, hasReceipt_registerEnvelope.
  - unfold hasPlan, hasReceipt, hasEnvelope, hasArtifact, registerPlan. cbn.
    by rewrite Map_has_insert.
  - unfold hasPlan, hasReceipt, hasEnvelope, hasArtifact, registerReceipt.
    cbn. by rewrite Map_has_insert.
Qed.

Lemma register_all_has (calls : list Registration)
    (registry : EntityRegistry) (j : string) :
  hasEnvelope (register_all registry calls) j =
    hasEnvelope registry j || existsb (registers_envelope j) calls ∧
  hasPlan (register_all registry calls) j =
    hasPlan registry j || existsb (registers_plan j) calls ∧
  hasReceipt (register_all registry calls) j =
    hasReceipt registry j || existsb (registers_receipt j) calls ∧
  hasArtifact (register_all registry calls) j =
    hasArtifact registry j || existsb (registers_artifact j) calls.
Proof.
  revert registry. induction calls as [|c calls IH]; intros r.
  - cbn. by rewrite !orb_false_r.
  - change (register_all r (c :: calls))
      with (register_all (register r c) calls).
    destruct (IH (register r c)) as (-> & -> & -> & ->).
    destruct (register_has r c j) as (-> & -> & -> & ->).
    cbn [existsb].
    repeat split; apply eq_true_iff_eq; rewrite !orb_true_iff; tauto.
Qed.

Lemma existsb_Permutation {A} (f : A → bool) (l l' : list A) :
  l ≡ₚ l' → existsb f l = existsb f l'.
Proof.
  induction 1 as [|x l l' _ IH|x y l|l l' l'' _ IH1 _ IH2]; simpl.
  - done.
  - by rewrite IH.
  - by destruct (f x), (f y).
  - by rewrite IH1.
Qed.

(** X4: after any sequence of registration calls, a presence query
    answers [true] exactly when it did before the calls or one of the calls
    registered that identifier (for [hasArtifact]: one of the registered
    envelopes lists it).  In particular no registration ever removes an
    entry. *)
Theorem registrations_only_add
    (registry : EntityRegistry) (calls : list Registration) (j : string) :
  hasEnvelope (register_all registry calls) j =
    hasEnvelope registry j || existsb (registers_envelope j) calls ∧
  hasPlan (register_all registry calls) j =
    hasPlan registry j || existsb (registers_plan j) calls ∧
  hasReceipt (register_all registry calls) j =
    hasReceipt registry j || existsb (registers_receipt j) calls ∧
  hasArtifact (register_all registry calls) j =
    hasArtifact registry j || existsb (registers_artifact j) calls.
Proof. apply register_all_has. Qed.

(** X5: the answers of the four presence queries do not depend on the
    order of the registration calls. *)
Theorem registrations_order_irrelevant
    (registry : EntityRegistry) (calls calls' : list Registration)
    (j : string) :
  calls ≡ₚ calls' →
  hasEnvelope (register_all registry calls) j =
    hasEnvelope (register_all registry calls') j ∧
  hasPlan (register_all registry calls) j =
    hasPlan (register_all registry calls') j ∧
  hasReceipt (register_all registry calls) j =
    hasReceipt (register_all registry calls') j ∧
  hasArtifact (register_all registry calls) j =
    hasArtifact (register_all registry calls') j.
Proof.
  intros Hperm.
  destruct (register_all_has calls registry j) as (-> & -> & -> & ->).
  destruct (register_all_has calls' registry j) as (-> & -> & -> & ->).
  by rewrite !(existsb_Permutation _ _ _ Hperm).
Qed.

Lemma registrations_order_irrelevant_witness :
  let first :=
    RegisterEnvelope "E1"
      {| artifact_ids := ["A1"]; ref_parent_envelope_id := undefined |} in
  let second :=
    RegisterPlan "P1"
      {| pref_envelope_id := val "E1"; pref_receipt_id := undefined |} in
  hasArtifact (register_all new_registry [first; second]) "A1" =
  hasArtifact (register_all new_registry [second; first]) "A1".
Proof.
  cbn zeta.
  apply (registrations_order_irrelevant new_registry
           [RegisterEnvelope "E1"
              {| artifact_ids := ["A1"];
                 ref_parent_envelope_id := undefined |};
            RegisterPlan "P1"
              {| pref_envelope_id := val "E1";
                 pref_receipt_id := undefined |}]
           [RegisterPlan "P1"
              {| pref_envelope_id := val "E1";
                 pref_receipt_id := undefined |};
            RegisterEnvelope "E1"
              {| artifact_ids := ["A1"];
                 ref_parent_envelope_id := undefined |}] "A1").
  apply perm_swap.
Defined.

Lemma registry_eq (r1 r2 : EntityRegistry) :
  reg_envelopes r1 = reg_envelopes r2 →
  reg_plans r1 = reg_plans r2 →
  reg_receipts r1 = reg_receipts r2 →
  reg_artifacts r1 = reg_artifacts r2 →
  r1 = r2.
Proof. destruct r1, r2. simpl. by intros -> -> -> ->. Qed.

(** X6: registering the same envelope, plan or receipt a second time with
    the same projection leaves the registry exactly as the first
    registration left it. *)
Theorem reregistration_is_idempotent
    (registry : EntityRegistry) (call : Registration) :
  register (register registry call) call = register registry call.
Proof.
  destruct call as [id ref|id ref|id ref]; simpl.
  - apply registry_eq.
    + rewrite !registerEnvelope_eq.
      repeat (rewrite set_artifacts_envelopes; cbn [reg_envelopes]).
      apply insert_insert_eq.
    + by rewrite !registerEnvelope_eq, !set_artifacts_plans.
    + by rewrite !registerEnvelope_eq, !set_artifacts_receipts.
    + rewrite (registerEnvelope_eq (registerEnvelope registry id ref)).
      apply map_eq. intros a.
      rewrite set_artifacts_lookup. cbn [reg_artifacts].
      rewrite registerEnvelope_eq, set_artifacts_lookup.
      by case_bool_decide.
  - unfold registerPlan. cbn. by rewrite insert_insert_eq.
  - unfold registerReceipt. cbn. by rewrite insert_insert_eq.
Qed.

(** * Further properties of the internal check *)

Lemma elem_of_map {A B} (f : A → B) (l : list A) (y : B) :
  y ∈ map f l ↔ ∃ x, x ∈ l ∧ f x = y.
Proof.
  induction l as [|x l IH]; simpl.
  - split; [by intros ?%not_elem_of_nil|].
    by intros (x & ?%not_elem_of_nil & _).
  - rewrite elem_of_cons, IH. split.
    + intros [->|(x' & Hx' & <-)]; [exists x|exists x'];
        by rewrite elem_of_cons; auto.
    + intros (x' & [->|Hx']%elem_of_cons & <-); eauto.
Qed.

Lemma truthy_string (s : string) : truthy s ↔ s ≠ EmptyString.
Proof. by destruct s. Qed.

Lemma elem_of_artifact_id_set (E : Envelope) (ref : string) :
  ref ∈ artifact_id_set E ↔ declares_artifact E ref.
Proof.
  unfold artifact_id_set, declares_artifact.
  by rewrite elem_of_list_to_set, list_elem_of_filter, truthy_string,
    elem_of_map.
Qed.

Lemma flat_map_nil {A B} (f : A → list B) (l : list A) :
  flat_map f l = [] ↔ ∀ x, x ∈ l → f x = [].
Proof.
  induction l as [|x l IH]; simpl.
  - split; [by intros _ x ?%not_elem_of_nil|done].
  - split.
    + intros [Hx Hl]%app_eq_nil y [->|Hy]%elem_of_cons; [done|].
      by apply IH.
    + intros Hall. rewrite (Hall x), (proj2 IH); [done| |by left].
      intros y Hy. apply Hall. by right.
Qed.

Lemma mk_result_valid errs warns :
  valid (mk_result errs warns) = true ↔ errs = [].
Proof. by destruct errs. Qed.

Lemma internal_errors_nil (E : Envelope) :
  internal_errors E = [] ↔
  ∀ ref, ref ∈ all_evidence_refs E → ref ∈ artifact_id_set E.
Proof.
  unfold internal_errors, all_evidence_refs. rewrite flat_map_nil. split.
  - intros Hall ref (f & Hf & Href)%elem_of_flat_map.
    specialize (Hall f Hf). rewrite flat_map_nil in Hall.
    specialize (Hall ref Href). unfold ref_errors in Hall.
    by case_bool_decide.
  - intros Hall f Hf. apply flat_map_nil. intros ref Href.
    unfold ref_errors. rewrite bool_decide_eq_true_2; [done|].
    apply Hall, elem_of_flat_map. eauto.
Qed.

(** X7: the internal check of an envelope is valid exactly when every
    evidence reference of every finding is the non-empty identifier of one
    of the envelope's own artifacts. *)
Theorem internal_check_valid_iff_refs_resolve (E : Envelope) :
  ∃ res,
    validateEnvelopeInternalRefs E = Normal res ∧
    (valid res = true ↔
     ∀ f ref, f ∈ or_empty (findings E) →
              ref ∈ or_empty (evidence_refs f) →
              declares_artifact E ref).
Proof.
  rewrite validateEnvelopeInternalRefs_eq. eexists. split; [reflexivity|].
  rewrite mk_result_valid, internal_errors_nil. split.
  - intros Hall f ref Hf Href. apply elem_of_artifact_id_set, Hall.
    apply elem_of_flat_map. eauto.
  - intros Hall ref (f & Hf & Href)%elem_of_flat_map.
    apply elem_of_artifact_id_set. eauto.
Qed.

Lemma target_ids_ref_errors (E : Envelope) (f : Finding) (refs : list string) :
  map target_id (flat_map (ref_errors E f) refs) =
  filter (λ ref, ref ∉ artifact_id_set E) refs.
Proof.
  induction refs as [|ref refs IH]; [done|].
  simpl. rewrite map_app, IH, filter_cons. unfold ref_errors.
  case_bool_decide; by case_decide.
Qed.

(** X8: the internal check reports the dangling evidence references one
    by one, in document order and with their repetitions: the target
    identifiers of its errors are the evidence references that are not in
    the envelope's artifact set.  Every error is a [missing_reference] from
    the envelope to an artifact. *)
Theorem internal_check_reports_each_dangling_ref (E : Envelope) :
  ∃ res,
    validateEnvelopeInternalRefs E = Normal res ∧
    map target_id (errors res) =
      filter (λ ref, ref ∉ artifact_id_set E) (all_evidence_refs E) ∧
    Forall (λ e, err_type e = missing_reference ∧
                 source_schema e = "evidence-envelope" ∧
                 source_id e = envelope_id E ∧
                 target_schema e = "artifact") (errors res).
Proof.
  rewrite validateEnvelopeInternalRefs_eq. eexists. split; [reflexivity|].
  simpl. split.
  - unfold internal_errors, all_evidence_refs.
    induction (or_empty (findings E)) as [|f fs IH]; [done|].
    simpl. by rewrite map_app, filter_app, IH, target_ids_ref_errors.
  - apply Forall_forall.
    by intros e (f & ref & _ & _ & _ & ->)%internal_errors_inv.
Qed.

(** X9: an empty evidence reference never resolves: a finding that lists
    the empty string makes the envelope invalid, even when an artifact of
    the envelope has the empty string as its identifier. *)
Theorem empty_evidence_ref_never_resolves (E : Envelope) (f : Finding) :
  f ∈ or_empty (findings E) →
  EmptyString ∈ or_empty (evidence_refs f) →
  ∃ res,
    validateEnvelopeInternalRefs E = Normal res ∧
    valid res = false ∧
    finding_error (envelope_id E) (finding_id f) EmptyString ∈ errors res.
Proof.
  intros Hf Href.
  rewrite validateEnvelopeInternalRefs_eq. eexists. split; [reflexivity|].
  assert (Hin : finding_error (envelope_id E) (finding_id f) EmptyString
                ∈ internal_errors E).
  { unfold internal_errors. apply elem_of_flat_map. exists f. split; [done|].
    apply elem_of_flat_map. exists EmptyString. split; [done|].
    unfold ref_errors. rewrite bool_decide_eq_false_2.
    - by apply list_elem_of_singleton.
    - rewrite elem_of_artifact_id_set. by intros [? _]. }
  split; [|exact Hin]. simpl.
  destruct (internal_errors E); [by apply not_elem_of_nil in Hin|done].
Qed.

Lemma empty_evidence_ref_never_resolves_witness :
  let E :=
    {| envelope_id := "E1";
       artifacts := val [{| artifact_id := EmptyString |}];
       findings :=
         val [{| finding_id := "F1"; evidence_refs := val [EmptyString] |}];
       provenance := undefined |} in
  ∃ res, validateEnvelopeInternalRefs E = Normal res ∧ valid res = false.
Proof.
  cbn zeta.
  destruct (empty_evidence_ref_never_resolves
    {| envelope_id := "E1";
       artifacts := val [{| artifact_id := EmptyString |}];
       findings :=
         val [{| finding_id := "F1"; evidence_refs := val [EmptyString] |}];
       provenance := undefined |}
    {| finding_id := "F1"; evidence_refs := val [EmptyString] |})
    as (res & Hrun & Hvalid & _).
  - simpl. apply list_elem_of_singleton. reflexivity.
  - simpl. apply list_elem_of_singleton. reflexivity.
  - exists res. split; [exact Hrun|exact Hvalid].
Defined.

(** X10: the artifacts of an envelope count as a set of non-empty
    identifiers: replacing the artifact list by one that declares the same
    identifiers (reordered, with repetitions, with more or fewer artifacts
    that have an empty identifier, or [null] for none) does not change the
    result of the internal check. *)
Theorem internal_check_sees_artifacts_as_a_set
    (E : Envelope) (arts : Js (list Artifact)) :
  (∀ ref, declares_artifact E ref ↔
          declares_artifact (with_artifacts E arts) ref) →
  validateEnvelopeInternalRefs (with_artifacts E arts) =
  validateEnvelopeInternalRefs E.
Proof.
  intros Hsame. rewrite !validateEnvelopeInternalRefs_eq.
  assert (Hset : artifact_id_set (with_artifacts E arts) = artifact_id_set E).
  { apply set_eq. intros ref. rewrite !elem_of_artifact_id_set.
    symmetry. apply Hsame. }
  unfold internal_errors, ref_errors. rewrite Hset. reflexivity.
Qed.

Lemma internal_check_sees_artifacts_as_a_set_witness :
  let E :=
    {| envelope_id := "E1";
       artifacts := val [{| artifact_id := "A1" |}; {| artifact_id := "A2" |}];
       findings :=
         val [{| finding_id := "F1"; evidence_refs := val ["A2"; "A3"] |}];
       provenance := undefined |} in
  let arts :=
    val [{| artifact_id := "A2" |}; {| artifact_id := EmptyString |};
         {| artifact_id := "A1" |}; {| artifact_id := "A2" |}] in
  validateEnvelopeInternalRefs (with_artifacts E arts) =
  validateEnvelopeInternalRefs E.
Proof.
  cbn zeta.
  apply internal_check_sees_artifacts_as_a_set.
  intros ref. rewrite <- !elem_of_artifact_id_set.
  unfold artifact_id_set, with_artifacts. cbn [artifacts or_empty].
  rewrite !elem_of_list_to_set, !list_elem_of_filter, !truthy_string.
  cbn [map artifact_id].
  rewrite !elem_of_cons. intuition (subst; try done).
Defined.

(** * Further properties of the batch validator *)

Lemma register_all_app registry calls calls' :
  register_all registry (calls ++ calls') =
  register_all (register_all registry calls) calls'.
Proof. apply foldl_app. Qed.

Lemma foldl_map {A B C} (f : A → B → A) (g : C → B) (l : list C) (a : A) :
  foldl f a (map g l) = foldl (λ a c, f a (g c)) a l.
Proof. revert a. induction l as [|c l IH]; intros a; [done|]. apply IH. Qed.

Lemma register_documents_calls registry documents :
  register_documents registry documents =
  register_all registry (batch_calls documents).
Proof.
  unfold batch_calls, register_documents.
  rewrite !register_all_app. unfold register_all.
  by rewrite !foldl_map.
Qed.

Lemma existsb_true_elem_of {A} (f : A → bool) (l : list A) :
  existsb f l = true ↔ ∃ x, x ∈ l ∧ f x = true.
Proof.
  rewrite existsb_exists. split; intros (x & Hx & Hf); exists x;
    (split; [by apply list_elem_of_In|done]).
Qed.

(** X11: an empty batch (every list absent, [null] or empty) is valid, has
    no error and no warning, and leaves the registry unchanged. *)
Theorem empty_batch_is_valid_and_inert
    (registry : EntityRegistry) (documents : Documents) :
  or_empty (doc_envelopes documents) = [] →
  or_empty (doc_plans documents) = [] →
  or_empty (doc_receipts documents) = [] →
  validateCrossReferences registry documents =
  Normal ({| valid := true; errors := []; warnings := [] |}, registry).
Proof.
  intros He Hp Hr. rewrite validateCrossReferences_eq.
  unfold register_documents, batch_errors, batch_warnings.
  by rewrite He, Hp, Hr.
Qed.

Lemma empty_batch_is_valid_and_inert_witness :
  validateCrossReferences new_registry
    {| doc_envelopes := undefined; doc_plans := null; doc_receipts := val [] |}
  = Normal ({| valid := true; errors := []; warnings := [] |}, new_registry).
Proof.
  apply (empty_batch_is_valid_and_inert new_registry
    {| doc_envelopes := undefined; doc_plans := null;
       doc_receipts := val [] |}); reflexivity.
Defined.

(** X12: the registry a batch run leaves behind is the one obtained by
    calling [registerEnvelope] for every envelope, then [registerPlan] for
    every plan, then [registerReceipt] for every receipt, in list order,
    whether or not the batch is valid. *)
Theorem batch_registers_every_document
    (registry : EntityRegistry) (documents : Documents) :
  ∃ res,
    validateCrossReferences registry documents =
    Normal (res, register_all registry (batch_calls documents)).
Proof.
  rewrite validateCrossReferences_eq, register_documents_calls.
  eexists. reflexivity.
Qed.

Lemma known_envelope_has registry documents id :
  hasEnvelope (register_documents registry documents) id = true ↔
  known_envelope registry documents id.
Proof.
  unfold known_envelope.
  by rewrite hasEnvelope_register_documents, orb_true_iff, bool_decide_eq_true.
Qed.

Lemma known_plan_has registry documents id :
  hasPlan (register_documents registry documents) id = true ↔
  known_plan registry documents id.
Proof.
  unfold known_plan.
  by rewrite hasPlan_register_documents, orb_true_iff, bool_decide_eq_true.
Qed.

(** X13: after a batch run, valid or not, every envelope, plan and receipt
    of the batch is registered under its identifier, every artifact of
    every envelope of the batch is indexed (also one with an empty
    identifier), and whatever was registered before still is. *)
Theorem batch_leaves_documents_registered
    (registry : EntityRegistry) (documents : Documents) :
  ∃ res registry',
    validateCrossReferences registry documents = Normal (res, registry') ∧
    (∀ E, E ∈ or_empty (doc_envelopes documents) →
       hasEnvelope registry' (envelope_id E) = true ∧
       ∀ a, a ∈ or_empty (artifacts E) →
            hasArtifact registry' (artifact_id a) = true) ∧
    (∀ P, P ∈ or_empty (doc_plans documents) →
       hasPlan registry' (plan_id P) = true) ∧
    (∀ R, R ∈ or_empty (doc_receipts documents) →
       hasReceipt registry' (r_receipt_id R) = true) ∧
    (∀ j, (hasEnvelope registry j = true → hasEnvelope registry' j = true) ∧
          (hasPlan registry j = true → hasPlan registry' j = true) ∧
          (hasReceipt registry j = true → hasReceipt registry' j = true) ∧
          (hasArtifact registry j = true → hasArtifact registry' j = true)).
Proof.
  rewrite validateCrossReferences_eq, register_documents_calls. cbn zeta.
  eexists _, _. split; [reflexivity|].
  split; [|split; [|split]].
  - intros E HE. split.
    + destruct (register_all_has (batch_calls documents) registry
                  (envelope_id E)) as (-> & _).
      apply orb_true_iff. right. apply existsb_true_elem_of.
      exists (RegisterEnvelope (envelope_id E) (envelope_ref E)). split.
      * unfold batch_calls. rewrite !elem_of_app. left.
        apply elem_of_map. eauto.
      * simpl. by apply bool_decide_eq_true.
    + intros a Ha.
      destruct (register_all_has (batch_calls documents) registry
                  (artifact_id a)) as (_ & _ & _ & ->).
      apply orb_true_iff. right. apply existsb_true_elem_of.
      exists (RegisterEnvelope (envelope_id E) (envelope_ref E)). split.
      * unfold batch_calls. rewrite !elem_of_app. left.
        apply elem_of_map. eauto.
      * simpl. apply bool_decide_eq_true, elem_of_map. eauto.
  - intros P HP.
    destruct (register_all_has (batch_calls documents) registry
                (plan_id P)) as (_ & -> & _).
    apply orb_true_iff. right. apply existsb_true_elem_of.
    eexists (RegisterPlan (plan_id P) _). split.
    + unfold batch_calls. rewrite !elem_of_app. right. left.
      apply elem_of_map. eauto.
    + simpl. by apply bool_decide_eq_true.
  - intros R HR.
    destruct (register_all_has (batch_calls documents) registry
                (r_receipt_id R)) as (_ & _ & -> & _).
    apply orb_true_iff. right. apply existsb_true_elem_of.
    eexists (RegisterReceipt (r_receipt_id R) _). split.
    + unfold batch_calls. rewrite !elem_of_app. right. right.
      apply elem_of_map. eauto.
    + simpl. by apply bool_decide_eq_true.
  - intros j.
    destruct (register_all_has (batch_calls documents) registry j)
      as (-> & -> & -> & ->).
    repeat split; by intros ->.
Qed.

Lemma batch_errors_sound registry documents e :
  e ∈ batch_errors (register_documents registry documents) documents →
  sound_error (register_documents registry documents) e.
Proof.
  set (registry' := register_documents registry documents).
  unfold batch_errors. rewrite !elem_of_app, !elem_of_flat_map.
  intros [(E & HE & He)|[(P & HP & He)|(R & HR & He)]].
  - unfold envelope_errors, parent_errors in He.
    rewrite !elem_of_app in He. destruct He as [[He|He]|He].
    + apply elem_of_if_singleton in He as [Hun ->].
      apply unresolved_present in Hun as [_ Hhas].
      right. left. by split.
    + apply elem_of_if_singleton in He as [Heq ->].
      apply bool_decide_eq_true in Heq.
      unfold sound_error. simpl. rewrite Heq. simpl.
      split; [done|]. split; [done|].
      apply known_envelope_has. right. apply elem_of_map. eauto.
    + apply internal_errors_inv in He as (f & ref & _ & _ & _ & ->).
      by left.
  - apply plan_errors_inv in He as He'.
    unfold plan_errors in He. apply elem_of_if_singleton in He as [_ ->].
    right. left. split; [done|]. apply He'.
  - unfold receipt_errors in He. apply elem_of_app in He as [He|He].
    + apply receipt_plan_errors_inv in He as He'.
      unfold receipt_plan_errors in He.
      apply elem_of_if_singleton in He as [_ ->].
      right. right. split; [done|]. apply He'.
    + apply receipt_envelope_errors_inv in He as He'.
      unfold receipt_envelope_errors in He.
      apply elem_of_if_singleton in He as [_ ->].
      right. left. split; [done|]. apply He'.
Qed.

(** X14: a batch run never reports a registered document as missing and
    never uses the reserved categories.  Every error is a
    [missing_reference] to an artifact, to an envelope that the registry
    left by the run does not hold, or to a plan that it does not hold, or
    a [circular_reference] on the parent field whose source and target are
    the same registered envelope; every warning is an
    [unverified_reference]. *)
Theorem batch_errors_are_sound
    (registry : EntityRegistry) (documents : Documents) :
  ∃ res registry',
    validateCrossReferences registry documents = Normal (res, registry') ∧
    Forall (sound_error registry') (errors res) ∧
    Forall (λ w, warn_type w = unverified_reference) (warnings res).
Proof.
  rewrite validateCrossReferences_eq. cbn zeta.
  eexists _, _. split; [reflexivity|]. simpl. split.
  - apply Forall_forall. intros e. apply batch_errors_sound.
  - apply Forall_forall. unfold batch_warnings.
    intros w (E & _ & Hw)%elem_of_flat_map.
    unfold internal_warnings in Hw.
    by apply elem_of_if_singleton in Hw as [_ ->].
Qed.

Lemma unresolved_false_iff (has : string → bool) (v : Js string) :
  unresolved has v = false ↔
  ∀ p, v = val p → p ≠ EmptyString → has p = true.
Proof.
  unfold unresolved. destruct v as [| |s]; simpl.
  - split; [by intros _ p ?|done].
  - split; [by intros _ p ?|done].
  - destruct s as [|c s].
    + split; [|done]. by intros _ p [= <-] ?.
    + split.
      * intros Hun p [= <-] _. by destruct (has (String c s)).
      * intros Hall. by rewrite (Hall (String c s)).
Qed.

Lemma if_singleton_nil {A} (b : bool) (x : A) :
  (if b then [x] else []) = [] ↔ b = false.
Proof. by destruct b. Qed.

Lemma batch_errors_nil registry documents :
  batch_errors (register_documents registry documents) documents = [] ↔
  batch_consistent registry documents.
Proof.
  set (registry' := register_documents registry documents).
  unfold batch_errors. split.
  - intros (He & (Hp & Hr)%app_eq_nil)%app_eq_nil.
    rewrite flat_map_nil in He. rewrite flat_map_nil in Hp.
    rewrite flat_map_nil in Hr. split.
    + intros E p HE Hparent Hne. apply known_envelope_has.
      specialize (He E HE). unfold envelope_errors, parent_errors in He.
      apply app_eq_nil in He as [[Hun _]%app_eq_nil _].
      apply if_singleton_nil in Hun.
      by eapply unresolved_false_iff.
    + intros E HE Hself.
      specialize (He E HE). unfold envelope_errors, parent_errors in He.
      apply app_eq_nil in He as [[_ Hcirc]%app_eq_nil _].
      apply if_singleton_nil in Hcirc. unfold strict_eq in Hcirc.
      by apply bool_decide_eq_false in Hcirc.
    + intros E ref HE Href. apply elem_of_artifact_id_set.
      specialize (He E HE). unfold envelope_errors in He.
      apply app_eq_nil in He as [_ Hint].
      by eapply internal_errors_nil.
    + intros P e HP Hsrc Hne. apply known_envelope_has.
      specialize (Hp P HP). unfold plan_errors in Hp.
      apply if_singleton_nil in Hp. by eapply unresolved_false_iff.
    + intros R p HR Hplan Hne. apply known_plan_has.
      specialize (Hr R HR). unfold receipt_errors in Hr.
      apply app_eq_nil in Hr as [Hr _]. unfold receipt_plan_errors in Hr.
      apply if_singleton_nil in Hr. by eapply unresolved_false_iff.
    + intros R e HR Henv Hne. apply known_envelope_has.
      specialize (Hr R HR). unfold receipt_errors in Hr.
      apply app_eq_nil in Hr as [_ Hr]. unfold receipt_envelope_errors in Hr.
      apply if_singleton_nil in Hr. by eapply unresolved_false_iff.
  - intros [Hparents Hself Hrefs Hplans Hrplans Hrenvs].
    assert (He : flat_map (envelope_errors registry')
                   (or_empty (doc_envelopes documents)) = []).
    { apply flat_map_nil. intros E HE. unfold envelope_errors, parent_errors.
      rewrite (proj2 (if_singleton_nil _ _)), (proj2 (if_singleton_nil _ _)),
        (proj2 (internal_errors_nil E)); [done| | |].
      - intros ref Href. apply elem_of_artifact_id_set. by eapply Hrefs.
      - unfold strict_eq. apply bool_decide_eq_false. by apply Hself.
      - apply unresolved_false_iff. intros p Hp Hne.
        apply known_envelope_has. by eapply Hparents. }
    assert (Hp : flat_map (plan_errors batch_plan_msg registry')
                   (or_empty (doc_plans documents)) = []).
    { apply flat_map_nil. intros P HP. unfold plan_errors.
      apply if_singleton_nil, unresolved_false_iff. intros e Hsrc Hne.
      apply known_envelope_has. by eapply Hplans. }
    assert (Hr : flat_map (receipt_errors registry')
                   (or_empty (doc_receipts documents)) = []).
    { apply flat_map_nil. intros R HR.
      unfold receipt_errors, receipt_plan_errors, receipt_envelope_errors.
      rewrite (proj2 (if_singleton_nil _ _)), (proj2 (if_singleton_nil _ _));
        [done| |].
      - apply unresolved_false_iff. intros e Hsrc Hne.
        apply known_envelope_has. by eapply Hrenvs.
      - apply unresolved_false_iff. intros p Hplan Hne.
        apply known_plan_has. by eapply Hrplans. }
    by rewrite He, Hp, Hr.
Qed.

(** X15: a batch run is valid exactly when the batch is consistent: every
    non-empty parent, plan and envelope reference names a document that is
    registered before the run or belongs to the batch (in any position), no
    envelope is its own parent, and every evidence reference names a
    non-empty artifact identifier of its own envelope. *)
Theorem batch_valid_iff_consistent
    (registry : EntityRegistry) (documents : Documents) :
  ∃ res registry',
    validateCrossReferences registry documents = Normal (res, registry') ∧
    (valid res = true ↔ batch_consistent registry documents).
Proof.
  rewrite validateCrossReferences_eq. cbn zeta.
  eexists _, _. split; [reflexivity|].
  by rewrite mk_result_valid, batch_errors_nil.
Qed.

Lemma unresolved_ext (has1 has2 : string → bool) (v : Js string) :
  (∀ j, has1 j = has2 j) → unresolved has1 v = unresolved has2 v.
Proof. intros Hext. unfold unresolved. by rewrite Hext. Qed.

Lemma batch_errors_ext (r1 r2 : EntityRegistry) (documents : Documents) :
  (∀ j, hasEnvelope r1 j = hasEnvelope r2 j) →
  (∀ j, hasPlan r1 j = hasPlan r2 j) →
  batch_errors r1 documents = batch_errors r2 documents.
Proof.
  intros Henv Hplan. unfold batch_errors. f_equal; [|f_equal].
  - apply flat_map_ext. intros E. unfold envelope_errors, parent_errors.
    by rewrite (unresolved_ext _ _ _ Henv).
  - apply flat_map_ext. intros P. unfold plan_errors.
    by rewrite (unresolved_ext _ _ _ Henv).
  - apply flat_map_ext. intros R.
    unfold receipt_errors, receipt_plan_errors, receipt_envelope_errors.
    by rewrite (unresolved_ext _ _ _ Henv), (unresolved_ext _ _ _ Hplan).
Qed.

(** X16: running the batch validator a second time on the same documents
    and on the registry the first run left behind, without [clear()], gives
    the same result, and the second run adds nothing that the presence
    queries can see. *)
Theorem batch_rerun_without_clear
    (registry : EntityRegistry) (documents : Documents) :
  ∃ res registry1 registry2,
    validateCrossReferences registry documents = Normal (res, registry1) ∧
    validateCrossReferences registry1 documents = Normal (res, registry2) ∧
    ∀ j, hasEnvelope registry2 j = hasEnvelope registry1 j ∧
         hasPlan registry2 j = hasPlan registry1 j ∧
         hasReceipt registry2 j = hasReceipt registry1 j ∧
         hasArtifact registry2 j = hasArtifact registry1 j.
Proof.
  rewrite validateCrossReferences_eq. cbn zeta.
  eexists _, _, _. split; [reflexivity|].
  rewrite validateCrossReferences_eq. cbn zeta.
  assert (Hsame : ∀ j,
    hasEnvelope (register_documents (register_documents registry documents)
                   documents) j =
      hasEnvelope (register_documents registry documents) j ∧
    hasPlan (register_documents (register_documents registry documents)
               documents) j =
      hasPlan (register_documents registry documents) j ∧
    hasReceipt (register_documents (register_documents registry documents)
                  documents) j =
      hasReceipt (register_documents registry documents) j ∧
    hasArtifact (register_documents (register_documents registry documents)
                   documents) j =
      hasArtifact (register_documents registry documents) j).
  { intros j. rewrite !register_documents_calls.
    destruct (register_all_has (batch_calls documents)
                (register_all registry (batch_calls documents)) j)
      as (-> & -> & -> & ->).
    destruct (register_all_has (batch_calls documents) registry j)
      as (-> & -> & -> & ->).
    repeat split; apply eq_true_iff_eq; rewrite !orb_true_iff; tauto. }
  split; [|exact Hsame].
  rewrite (batch_errors_ext
    (register_documents (register_documents registry documents) documents)
    (register_documents registry documents)); [reflexivity| |];
    intros j; by destruct (Hsame j) as (? & ? & _).
Qed.

Lemma unresolved_mono (has1 has2 : string → bool) (v : Js string) :
  (∀ j, has1 j = true → has2 j = true) →
  unresolved has2 v = true → unresolved has1 v = true.
Proof.
  intros Hmono. unfold unresolved.
  rewrite !andb_true_iff, !negb_true_iff. intros [Ht Hh]. split; [done|].
  destruct (has1 (to_String v)) eqn:H1; [|done].
  by rewrite (Hmono _ H1) in Hh.
Qed.

Lemma elem_of_if_singleton_mono {A} (b1 b2 : bool) (x y : A) :
  (b2 = true → b1 = true) →
  y ∈ (if b2 then [x] else []) → y ∈ (if b1 then [x] else []).
Proof.
  intros Hb [-> ->]%elem_of_if_singleton. rewrite Hb by done.
  by apply list_elem_of_singleton.
Qed.

Lemma batch_errors_mono (r1 r2 : EntityRegistry) (documents : Documents) e :
  (∀ j, hasEnvelope r1 j = true → hasEnvelope r2 j = true) →
  (∀ j, hasPlan r1 j = true → hasPlan r2 j = true) →
  e ∈ batch_errors r2 documents → e ∈ batch_errors r1 documents.
Proof.
  intros Henv Hplan. unfold batch_errors.
  rewrite !elem_of_app, !elem_of_flat_map.
  intros [(E & HE & He)|[(P & HP & He)|(R & HR & He)]].
  - left. exists E. split; [done|].
    unfold envelope_errors, parent_errors in *.
    rewrite !elem_of_app in *. destruct He as [[He|He]|He]; [|by auto..].
    left. left. revert He. apply elem_of_if_singleton_mono.
    by apply unresolved_mono.
  - right. left. exists P. split; [done|]. unfold plan_errors in *.
    revert He. apply elem_of_if_singleton_mono. by apply unresolved_mono.
  - right. right. exists R. split; [done|].
    unfold receipt_errors, receipt_plan_errors, receipt_envelope_errors in *.
    rewrite !elem_of_app in *. destruct He as [He|He]; [left|right];
      revert He; apply elem_of_if_singleton_mono; by apply unresolved_mono.
Qed.

(** X17: a fuller registry can only remove errors.  If every envelope and
    plan known to [registry1] is known to [registry2], then every error of
    the batch run from [registry2] is an error of the run from [registry1],
    the warnings are the same, and a batch valid from [registry1] is valid
    from [registry2]. *)
Theorem fuller_registry_only_removes_errors
    (registry1 registry2 : EntityRegistry) (documents : Documents) :
  (∀ j, hasEnvelope registry1 j = true → hasEnvelope registry2 j = true) →
  (∀ j, hasPlan registry1 j = true → hasPlan registry2 j = true) →
  ∃ res1 res2 registry1' registry2',
    validateCrossReferences registry1 documents =
      Normal (res1, registry1') ∧
    validateCrossReferences registry2 documents =
      Normal (res2, registry2') ∧
    (∀ e, e ∈ errors res2 → e ∈ errors res1) ∧
    warnings res2 = warnings res1 ∧
    (valid res1 = true → valid res2 = true).
Proof.
  intros Henv Hplan. rewrite !validateCrossReferences_eq. cbn zeta.
  eexists _, _, _, _. split; [reflexivity|]. split; [reflexivity|].
  assert (Hsub : ∀ e,
    e ∈ batch_errors (register_documents registry2 documents) documents →
    e ∈ batch_errors (register_documents registry1 documents) documents).
  { intros e. apply batch_errors_mono; intros j.
    - rewrite !hasEnvelope_register_documents, !orb_true_iff.
      intros [?|?]; auto.
    - rewrite !hasPlan_register_documents, !orb_true_iff.
      intros [?|?]; auto. }
  split; [exact Hsub|]. split; [reflexivity|].
  rewrite !mk_result_valid. intros Hnil.
  destruct (batch_errors (register_documents registry2 documents) documents)
    as [|e l]; [done|].
  specialize (Hsub e). rewrite Hnil in Hsub.
  exfalso. eapply not_elem_of_nil, Hsub. by left.
Qed.

Lemma fuller_registry_only_removes_errors_witness :
  let registry2 :=
    registerEnvelope new_registry "E404"
      {| artifact_ids := []; ref_parent_envelope_id := undefined |} in
  ∃ res1 res2 registry1' registry2',
    validateCrossReferences new_registry scenario_unregistered_envelope =
      Normal (res1, registry1') ∧
    validateCrossReferences registry2 scenario_unregistered_envelope =
      Normal (res2, registry2') ∧
    valid res1 = false ∧ valid res2 = true.
Proof.
  cbn zeta.
  destruct (fuller_registry_only_removes_errors new_registry
    (registerEnvelope new_registry "E404"
       {| artifact_ids := []; ref_parent_envelope_id := undefined |})
    scenario_unregistered_envelope)
    as (res1 & res2 & r1 & r2 & Hrun1 & Hrun2 & _).
  - intros j H. vm_compute in H. discriminate H.
  - intros j H. vm_compute in H. discriminate H.
  - exists res1, res2, r1, r2. split; [exact Hrun1|]. split; [exact Hrun2|].
    rewrite validateCrossReferences_eq in Hrun1, Hrun2.
    cbn zeta in Hrun1, Hrun2.
    injection Hrun1 as <- _. injection Hrun2 as <- _.
    split; vm_compute; reflexivity.
Defined.

Lemma not_known_envelope registry documents id :
  ¬ known_envelope registry documents id →
  hasEnvelope (register_documents registry documents) id = false.
Proof.
  intros Hnot. apply not_true_is_false. by rewrite known_envelope_has.
Qed.

Lemma not_known_plan registry documents id :
  ¬ known_plan registry documents id →
  hasPlan (register_documents registry documents) id = false.
Proof.
  intros Hnot. apply not_true_is_false. by rewrite known_plan_has.
Qed.

(** X18: a receipt whose plan reference and envelope reference are both
    non-empty and both unknown adds two errors to a batch run, the
    [missing_reference] of the plan first and the one of the envelope
    second; the second check is not skipped after the first has failed. *)
Theorem receipt_can_accumulate_two_errors
    (registry : EntityRegistry) (documents : Documents)
    (before after : list Receipt) (R : Receipt) (planId envelopeId : string) :
  doc_receipts documents = val (before ++ R :: after) →
  r_plan_id R = val planId → planId ≠ EmptyString →
  ¬ known_plan registry documents planId →
  r_source_envelope_id R = val envelopeId → envelopeId ≠ EmptyString →
  ¬ known_envelope registry documents envelopeId →
  let e1 :=
    {| err_type := missing_reference;
       source_schema := "receipt";
       source_id := r_receipt_id R;
       target_schema := "procedure-plan";
       target_id := planId;
       field := "plan_id";
       message := "Receipt " +:+ quoted (r_receipt_id R) +:+
                  " references non-existent plan " +:+ quoted planId |} in
  let e2 :=
    {| err_type := missing_reference;
       source_schema := "receipt";
       source_id := r_receipt_id R;
       target_schema := "evidence-envelope";
       target_id := envelopeId;
       field := "source_envelope_id";
       message := "Receipt " +:+ quoted (r_receipt_id R) +:+
                  " references non-existent envelope " +:+
                  quoted envelopeId |} in
  ∃ res registry',
    validateCrossReferences registry documents = Normal (res, registry') ∧
    valid res = false ∧
    errors res =
      flat_map (envelope_errors registry')
        (or_empty (doc_envelopes documents)) ++
      flat_map (plan_errors batch_plan_msg registry')
        (or_empty (doc_plans documents)) ++
      flat_map (receipt_errors registry') before ++
      [e1; e2] ++
      flat_map (receipt_errors registry') after.
Proof.
  intros Hrs Hplan Hp Hnp Henv He Hne e1 e2.
  rewrite validateCrossReferences_eq. cbn zeta.
  set (registry' := register_documents registry documents).
  assert (HR : receipt_errors registry' R = [e1; e2]).
  { unfold receipt_errors, receipt_plan_errors, receipt_envelope_errors.
    rewrite Hplan, Henv, !unresolved_val.
    unfold registry'. rewrite not_known_plan, not_known_envelope by done.
    by rewrite !truthy_nonempty. }
  assert (Herrors : batch_errors registry' documents =
    flat_map (envelope_errors registry')
      (or_empty (doc_envelopes documents)) ++
    flat_map (plan_errors batch_plan_msg registry')
      (or_empty (doc_plans documents)) ++
    flat_map (receipt_errors registry') before ++
    [e1; e2] ++
    flat_map (receipt_errors registry') after).
  { unfold batch_errors. rewrite Hrs. simpl or_empty.
    rewrite flat_map_app. simpl flat_map. by rewrite HR. }
  eexists _, _. split; [reflexivity|]. split; [|exact Herrors].
  apply not_true_is_false. rewrite mk_result_valid, Herrors.
  intros Hnil. do 3 apply app_eq_nil in Hnil as [_ Hnil]. discriminate Hnil.
Qed.

Lemma receipt_can_accumulate_two_errors_witness :
  ∃ res registry',
    validateCrossReferences new_registry
      {| doc_envelopes := undefined; doc_plans := undefined;
         doc_receipts :=
           val [{| r_receipt_id := "R1"; r_plan_id := val "P9";
                   r_envelope_id := undefined;
                   r_source_envelope_id := val "E9" |}] |} =
      Normal (res, registry') ∧
    length (errors res) = 2.
Proof.
  destruct (receipt_can_accumulate_two_errors new_registry
    {| doc_envelopes := undefined; doc_plans := undefined;
       doc_receipts :=
         val [{| r_receipt_id := "R1"; r_plan_id := val "P9";
                 r_envelope_id := undefined;
                 r_source_envelope_id := val "E9" |}] |}
    [] []
    {| r_receipt_id := "R1"; r_plan_id := val "P9";
       r_envelope_id := undefined; r_source_envelope_id := val "E9" |}
    "P9" "E9") as (res & registry' & Hrun & _ & Herrors).
  - reflexivity.
  - reflexivity.
  - discriminate.
  - intros [H|H]; [vm_compute in H; discriminate H|].
    simpl in H. by apply not_elem_of_nil in H.
  - reflexivity.
  - discriminate.
  - intros [H|H]; [vm_compute in H; discriminate H|].
    simpl in H. by apply not_elem_of_nil in H.
  - exists res, registry'. split; [exact Hrun|].
    rewrite Herrors. reflexivity.
Defined.



(** * Further properties of the incremental validator *)

(** X20: the incremental validator, on a plan, completes with no warning;
    it reports the [missing_reference] error of the source envelope when
    [source_envelope_id] is non-empty and unknown to the registry, and no
    error otherwise.  The plan's [receipt_id] plays no part. *)
Theorem incremental_plan_checks_source_envelope
    (registry : EntityRegistry) (P : Plan) :
  ∃ res,
    validateDocumentRefs registry plan P = Normal res ∧
    warnings res = [] ∧
    errors res =
      match source_envelope_id P with
      | val envelopeId =>
          if truthy envelopeId && negb (hasEnvelope registry envelopeId)
          then [{| err_type := missing_reference;
                   source_schema := "procedure-plan";
                   source_id := plan_id P;
                   target_schema := "evidence-envelope";
                   target_id := envelopeId;
                   field := "source_envelope_id";
                   message := "Plan references non-existent envelope " +:+
                              quoted envelopeId |}]
          else []
      | _ => []
      end ∧
    ∀ receiptId : Js string,
      validateDocumentRefs registry plan
        {| plan_id := plan_id P;
           source_envelope_id := source_envelope_id P;
           receipt_id := receiptId |} = Normal res.
Proof.
  rewrite validateDocumentRefs_plan_eq.
  eexists. split; [reflexivity|]. split; [reflexivity|]. split.
  - simpl. unfold plan_errors.
    destruct (source_envelope_id P) as [| |envelopeId]; reflexivity.
  - intros receiptId. by rewrite validateDocumentRefs_plan_eq.
Qed.

(** X21: when a batch run is valid, every document of the batch also
    passes the incremental validator against the registry the run leaves
    behind; for an envelope the incremental result is then the result of
    the internal check alone (no "not in registry" warning). *)
Theorem valid_batch_documents_pass_incrementally
    (registry : EntityRegistry) (documents : Documents) :
  ∃ res registry',
    validateCrossReferences registry documents = Normal (res, registry') ∧
    (valid res = true →
     (∀ E, E ∈ or_empty (doc_envelopes documents) →
        ∃ r, validateDocumentRefs registry' envelope E = Normal r ∧
             validateEnvelopeInternalRefs E = Normal r ∧
             valid r = true) ∧
     (∀ P, P ∈ or_empty (doc_plans documents) →
        ∃ r, validateDocumentRefs registry' plan P = Normal r ∧
             valid r = true) ∧
     (∀ R, R ∈ or_empty (doc_receipts documents) →
        ∃ r, validateDocumentRefs registry' receipt R = Normal r ∧
             valid r = true)).
Proof.
  rewrite validateCrossReferences_eq. cbn zeta.
  set (registry' := register_documents registry documents).
  eexists _, _. split; [reflexivity|].
  rewrite mk_result_valid. unfold batch_errors.
  intros (He & (Hp & Hr)%app_eq_nil)%app_eq_nil.
  rewrite flat_map_nil in He. rewrite flat_map_nil in Hp.
  rewrite flat_map_nil in Hr.
  split; [|split].
  - intros E HE. specialize (He E HE).
    unfold envelope_errors, parent_errors in He.
    apply app_eq_nil in He as [[Hun _]%app_eq_nil Hint].
    apply if_singleton_nil in Hun.
    rewrite validateDocumentRefs_envelope_eq,
      validateEnvelopeInternalRefs_eq, Hun, app_nil_r.
    eexists. split; [reflexivity|]. split; [reflexivity|].
    by apply mk_result_valid.
  - intros P HP. specialize (Hp P HP). unfold plan_errors in Hp.
    apply if_singleton_nil in Hp.
    rewrite validateDocumentRefs_plan_eq. unfold plan_errors. rewrite Hp.
    eexists. split; reflexivity.
  - intros R HR. specialize (Hr R HR). unfold receipt_errors in Hr.
    apply app_eq_nil in Hr as [Hr _]. unfold receipt_plan_errors in Hr.
    apply if_singleton_nil in Hr.
    rewrite validateDocumentRefs_receipt_eq. unfold receipt_plan_errors.
    rewrite Hr. eexists. split; reflexivity.
Qed.

(** X22: registering more documents never turns an incrementally valid
    document invalid: for every document and every sequence of
    registration calls, each error reported against the grown registry is
    an error reported against the original one. *)
Theorem registering_more_never_adds_incremental_errors
    (registry : EntityRegistry) (calls : list Registration)
    (schemaType : SchemaType) (document : DocumentOf schemaType) :
  ∃ res res',
    validateDocumentRefs registry schemaType document = Normal res ∧
    validateDocumentRefs (register_all registry calls) schemaType document =
      Normal res' ∧
    (∀ e, e ∈ errors res' → e ∈ errors res) ∧
    (valid res = true → valid res' = true).
Proof.
  assert (Hmono : ∀ j,
    (hasEnvelope registry j = true →
     hasEnvelope (register_all registry calls) j = true) ∧
    (hasPlan registry j = true →
     hasPlan (register_all registry calls) j = true)).
  { intros j. destruct (register_all_has calls registry j) as (-> & -> & _).
    split; by intros ->. }
  assert (Hvalid : ∀ errs errs' warns warns',
    (∀ e, e ∈ errs' → e ∈ errs) →
    valid (mk_result errs warns) = true →
    valid (mk_result errs' warns') = true).
  { intros errs errs' warns warns' Hsub. rewrite !mk_result_valid.
    intros ->. destruct errs' as [|e l]; [done|].
    exfalso. eapply not_elem_of_nil, Hsub. by left. }
  destruct schemaType.
  - rewrite !validateDocumentRefs_envelope_eq.
    eexists _, _. split; [reflexivity|]. split; [reflexivity|].
    split; [done|]. by apply Hvalid.
  - rewrite !validateDocumentRefs_plan_eq.
    eexists _, _. split; [reflexivity|]. split; [reflexivity|].
    assert (Hsub : ∀ e,
      e ∈ plan_errors (λ _, "Plan") (register_all registry calls) document →
      e ∈ plan_errors (λ _, "Plan") registry document).
    { intros e. unfold plan_errors. apply elem_of_if_singleton_mono.
      apply unresolved_mono. intros j. apply Hmono. }
    split; [exact Hsub|]. by apply Hvalid.
  - rewrite !validateDocumentRefs_receipt_eq.
    eexists _, _. split; [reflexivity|]. split; [reflexivity|].
    assert (Hsub : ∀ e,
      e ∈ receipt_plan_errors (λ _, "Receipt")
            (register_all registry calls) document →
      e ∈ receipt_plan_errors (λ _, "Receipt") registry document).
    { intros e. unfold receipt_plan_errors. apply elem_of_if_singleton_mono.
      apply unresolved_mono. intros j. apply Hmono. }
    split; [exact Hsub|]. by apply Hvalid.
Qed.

Lemma valid_batch_documents_pass_incrementally_witness :
  ∃ r registry',
    result_of (validateCrossReferences new_registry scenario_parent_in_batch)
      = Some {| valid := true; errors := [];
                warnings := [parent_unverified (val "E0")] |} ∧
    validateDocumentRefs registry' envelope envelope_child = Normal r ∧
    valid r = true ∧
    length (warnings r) = 1.
Proof.
  destruct (valid_batch_documents_pass_incrementally new_registry
              scenario_parent_in_batch)
    as (res & registry' & Hrun & Hvalid).
  rewrite validateCrossReferences_eq in Hrun. cbn zeta in Hrun.
  injection Hrun as <- <-.
  destruct Hvalid as (Henvs & _ & _); [vm_compute; reflexivity|].
  destruct (Henvs envelope_child) as (r & Hr & Hinternal & Hv).
  { simpl. apply elem_of_cons. left. reflexivity. }
  exists r, (register_documents new_registry scenario_parent_in_batch).
  split; [vm_compute; reflexivity|]. split; [exact Hr|]. split; [exact Hv|].
  rewrite validateEnvelopeInternalRefs_eq in Hinternal.
  injection Hinternal as <-. reflexivity.
Defined.

(** * The schema validator *)

Lemma js_or_default_nonempty (x : Js string) (d : string) :
  d ≠ EmptyString →
  ∃ s, js_or x (val d) = val s ∧ s ≠ EmptyString ∧
       (truthy x = true → x = val s) ∧ (truthy x = false → s = d).
Proof.
  intros Hd. unfold js_or. destruct x as [| |[|c s]].
  - exists d. by repeat split.
  - exists d. by repeat split.
  - exists d. by repeat split.
  - exists (String c s). by repeat split.
Qed.

(** X23: when Ajv rejects a document and leaves the error objects [l],
    [validate] reports one entry per error object, in order, with the same
    keyword; the path and the message of every entry are present and
    non-empty: the path is the error's instance path, or ["/"] when that
    is empty or missing (an error at the document root), and the message is
    Ajv's, or ["Unknown error"] when that is empty or missing. *)
Theorem validate_reports_every_ajv_error {Data : Type}
    (ajv : string → Data → Completion (bool * Js (list AjvError)))
    (schemaName : string) (data : Data) (l : list AjvError) :
  ajv schemaName data = Normal (false, val l) →
  ∃ l',
    validate ajv schemaName data =
      Normal {| vr_valid := false; vr_errors := val l' |} ∧
    map ve_keyword l' = map keyword l ∧
    Forall2
      (λ err e,
         ∃ p m,
           path e = val p ∧ p ≠ EmptyString ∧
           ve_message e = val m ∧ m ≠ EmptyString ∧
           (truthy (instancePath err) = true → instancePath err = val p) ∧
           (truthy (instancePath err) = false → p = "/") ∧
           (truthy (ajv_message err) = true → ajv_message err = val m) ∧
           (truthy (ajv_message err) = false → m = "Unknown error"))
      l l'.
Proof.
  intros Hajv. unfold validate. rewrite Hajv. simpl.
  eexists. split; [reflexivity|]. split.
  - rewrite map_map. reflexivity.
  - clear Hajv. induction l as [|err l IH]; simpl; [by constructor|].
    constructor; [|by apply IH].
    destruct (js_or_default_nonempty (instancePath err) "/")
      as (p & Hp & Hpne & Hp1 & Hp2); [done|].
    destruct (js_or_default_nonempty (ajv_message err) "Unknown error")
      as (m & Hm & Hmne & Hm1 & Hm2); [done|].
    exists p, m. simpl. by repeat split.
Qed.

Lemma validate_reports_every_ajv_error_witness :
  validate ajv_rejecting "evidenceEnvelope" tt =
  Normal
    {| vr_valid := false;
       vr_errors :=
         val [{| path := val "/"; ve_message := val "Unknown error";
                 ve_keyword := "required" |}] |}.
Proof.
  destruct (validate_reports_every_ajv_error ajv_rejecting
              "evidenceEnvelope" tt
              [{| instancePath := val EmptyString; ajv_message := undefined;
                  keyword := "required" |}])
    as (l' & Hrun & _).
  - reflexivity.
  - rewrite Hrun. vm_compute in Hrun. injection Hrun as <-. reflexivity.
Defined.

(** X24: [validate] throws exactly when Ajv throws; otherwise its verdict
    is Ajv's, a valid result carries no [errors] (whatever Ajv left in
    [ajv.errors]), and [errors] is never [null]: it is absent when Ajv left
    [null] or nothing. *)
Theorem validate_verdict_and_errors_shape {Data : Type}
    (ajv : string → Data → Completion (bool * Js (list AjvError)))
    (schemaName : string) (data : Data) :
  match ajv schemaName data with
  | Throw e => validate ajv schemaName data = Throw e
  | Normal (verdict, ajv_errors) =>
      ∃ res,
        validate ajv schemaName data = Normal res ∧
        vr_valid res = verdict ∧
        vr_errors res ≠ null ∧
        (verdict = true → vr_errors res = undefined) ∧
        (ajv_errors = null ∨ ajv_errors = undefined →
         vr_errors res = undefined) ∧
        (verdict = false →
         ∀ l, ajv_errors = val l →
              ∃ l', vr_errors res = val l' ∧ length l' = length l)
  end.
Proof.
  unfold validate.
  destruct (ajv schemaName data) as [[verdict ajv_errors]|e]; [|done].
  simpl. destruct verdict.
  - eexists. split; [reflexivity|]. simpl.
    repeat split; try done.
  - eexists. split; [reflexivity|]. simpl.
    repeat split; try done.
    + by destruct ajv_errors.
    + by intros [->| ->].
    + intros _ l ->. simpl. eexists. split; [reflexivity|].
      by rewrite length_map.
Qed.
